(** * Blue+Me messaging backend: record store, API handlers and their properties

    A shallow embedding of [src/lib/data-storage.ts] and of the route
    handlers under [src/app/api] (messages, contacts, users/status,
    users/[id], profile, auth/register) together with the credentials
    [authorize] callback of [lib/auth].

    Conventions of the embedding.
    - Strings are sequences of code units below 256.
    - An ISO-8601 time string ([new Date().toISOString()]) is represented by
      the epoch millisecond count it denotes, which is also what
      [new Date(s).getTime()] gives back for it.
    - The three JSON files always parse to values of the declared
      TypeScript types; a failing [fs.writeFileSync] (caught by the source
      and ignored) is the [fs_writable = false] case of the environment.
    - One request sees one clock value [now].
    - Request bodies are JSON objects whose values are strings. *)

From Stdlib Require Import Ascii String.
From stdpp Require Import gmap strings list fin_maps pretty sorting.

Set Warnings "-register-all".
Open Scope Z_scope.

(** ** JavaScript string helpers *)

(** [\s] of a JavaScript regular expression, which is also the set that
    [String.prototype.trim] strips, restricted to code units below 256:
    TAB, LF, VT, FF, CR, SPACE and NBSP. *)
Definition js_space (a : ascii) : bool :=
  let n := nat_of_ascii a in
  ((9 <=? n)%nat && (n <=? 13)%nat) || (n =? 32)%nat || (n =? 160)%nat.

(** [\d]: the ten ASCII digits. *)
Definition js_digit (a : ascii) : bool :=
  let n := nat_of_ascii a in (48 <=? n)%nat && (n <=? 57)%nat.

(** [s.replace(/\s+/g, '')] *)
Fixpoint strip_spaces (s : string) : string :=
  match s with
  | EmptyString => EmptyString
  | String a r => if js_space a then strip_spaces r else String a (strip_spaces r)
  end.

Fixpoint trim_start (s : string) : string :=
  match s with
  | EmptyString => EmptyString
  | String a r => if js_space a then trim_start r else s
  end.

Fixpoint trim_end (s : string) : string :=
  match s with
  | EmptyString => EmptyString
  | String a r =>
      match trim_end r with
      | EmptyString => if js_space a then EmptyString else String a EmptyString
      | r' => String a r'
      end
  end.

(** [s.trim()] *)
Definition trim (s : string) : string := trim_end (trim_start s).

Fixpoint all_digits (s : string) : bool :=
  match s with
  | EmptyString => true
  | String a r => js_digit a && all_digits r
  end.

(** [/^\d{10,15}$/.test(s)] *)
Definition phoneRegex_test (s : string) : bool :=
  all_digits s && (10 <=? String.length s)%nat && (String.length s <=? 15)%nat.

(** [s.split(',')] *)
Fixpoint split_comma_go (cur : string) (s : string) : list string :=
  match s with
  | EmptyString => [String.rev cur]
  | String a r =>
      if bool_decide (a = ","%char) then String.rev cur :: split_comma_go EmptyString r
      else split_comma_go (String a cur) r
  end.

Definition split_comma (s : string) : list string := split_comma_go EmptyString s.

(** Truthiness of a value that is a string or [undefined]. *)
Definition truthy (v : option string) : bool :=
  match v with
  | Some s => negb (bool_decide (s = EmptyString))
  | None => false
  end.

(** [v || ''] on a string or [undefined]. *)
Definition or_empty (v : option string) : string := default EmptyString v.

(** ** JSON values sent in response bodies *)

Inductive JVal :=
| JNull
| JBool (b : bool)
| JNum (n : Z)
| JStr (s : string)
| JDate (ms : Z)           (* a string holding the ISO rendering of [ms] *)
| JArr (xs : list JVal)
| JObj (fields : list (string * JVal)).

(** Does some object inside [v] carry the property [k]? *)
Fixpoint has_key (k : string) (v : JVal) : bool :=
  match v with
  | JArr xs => existsb (has_key k) xs
  | JObj fs => existsb (fun kv => bool_decide (kv.1 = k) || has_key k kv.2) fs
  | _ => false
  end.

(** Property read on a JSON object ([undefined] when it is absent). *)
Definition jget (k : string) (v : JVal) : option JVal :=
  match v with
  | JObj fs => snd <$> List.find (fun kv => bool_decide (kv.1 = k)) fs
  | _ => None
  end.

(** An optional property: JSON serialisation drops [undefined] ones. *)
Definition jopt {A} (k : string) (f : A → JVal) (v : option A) : list (string * JVal) :=
  match v with
  | Some x => [(k, f x)]
  | None => []
  end.

(** [const { k: _, ...rest } = obj] *)
Definition omit (k : string) (fs : list (string * JVal)) : list (string * JVal) :=
  List.filter (fun kv => negb (bool_decide (kv.1 = k))) fs.

(** ** Data model ([src/lib/data-storage.ts]) *)

Definition Time := Z.

Module User.
Record t := mk {
  id : string;
  phone : string;
  password : string;
  name : string;
  status : option string;
  profilePicture : option string;
  createdAt : Time;
  updatedAt : option Time;
  lastSeen : option Time;
}.
End User.

Module Contact.
Record t := mk {
  userId : string;
  contactId : string;
  addedAt : Time;
}.
End Contact.

Module Message.
Record t := mk {
  id : string;
  senderId : string;
  receiverId : string;
  content : string;
  timestamp : Time;
  read : bool;
}.
End Message.

(** [Omit<User, 'id' | 'createdAt'>], the argument of [createUser]. *)
Module NewUser.
Record t := mk {
  phone : string;
  password : string;
  name : string;
  status : option string;
  profilePicture : option string;
  updatedAt : option Time;
  lastSeen : option Time;
}.
End NewUser.

(** [Partial<Omit<User, 'id' | 'password' | 'phone' | 'createdAt'>>],
    the argument of [updateUser]; [None] is an absent property. *)
Module Updates.
Record t := mk {
  name : option string;
  status : option string;
  profilePicture : option string;
  updatedAt : option Time;
  lastSeen : option Time;
}.
Definition empty : t := mk None None None None None.
End Updates.

(** [Omit<Message, 'id' | 'timestamp' | 'read'>] *)
Module NewMessage.
Record t := mk {
  senderId : string;
  receiverId : string;
  content : string;
}.
End NewMessage.

(** The three JSON files: [users.json], [contacts.json], [messages.json]. *)
Record Disk := mkDisk {
  users : list User.t;
  contacts : gmap string (list Contact.t);
  messages : list Message.t;
}.

Definition empty_disk : Disk := mkDisk [] ∅ [].

(** What a request draws from outside the store: the clock, the suffix
    [Math.random().toString(36).substr(2, 9)], and whether writing the
    data directory succeeds. *)
Record Env := mkEnv {
  now : Time;
  random36 : string;
  fs_writable : bool;
}.

(** [Date.now().toString() + Math.random().toString(36).substr(2, 9)] *)
Definition gen_id (e : Env) : string := pretty (now e) +:+ random36 e.

(** ** Record store operations *)

Definition writeUsers (e : Env) (us : list User.t) (d : Disk) : Disk :=
  if fs_writable e then mkDisk us (contacts d) (messages d) else d.

Definition writeContacts (e : Env) (cs : gmap string (list Contact.t)) (d : Disk) : Disk :=
  if fs_writable e then mkDisk (users d) cs (messages d) else d.

Definition writeMessages (e : Env) (ms : list Message.t) (d : Disk) : Disk :=
  if fs_writable e then mkDisk (users d) (contacts d) ms else d.

Definition getUsers (d : Disk) : list User.t := users d.

Definition getUserByPhone (phone : string) (d : Disk) : option User.t :=
  snd <$> list_find (λ u, User.phone u = phone) (getUsers d).

Definition getUserById (id : string) (d : Disk) : option User.t :=
  snd <$> list_find (λ u, User.id u = id) (getUsers d).

Definition createUser (e : Env) (user : NewUser.t) (d : Disk) : Disk * User.t :=
  let newUser :=
    {| User.id := gen_id e;
       User.phone := NewUser.phone user;
       User.password := NewUser.password user;
       User.name := NewUser.name user;
       User.status := Some (or_empty (NewUser.status user));
       User.profilePicture := Some (or_empty (NewUser.profilePicture user));
       User.createdAt := now e;
       User.updatedAt := NewUser.updatedAt user;
       User.lastSeen := NewUser.lastSeen user |} in
  (writeUsers e (getUsers d ++ [newUser]) d, newUser).

(** [{ ...u, ...updates, updatedAt: now }] *)
Definition apply_updates (e : Env) (u : User.t) (updates : Updates.t) : User.t :=
  {| User.id := User.id u;
     User.phone := User.phone u;
     User.password := User.password u;
     User.name := default (User.name u) (Updates.name updates);
     User.status :=
       match Updates.status updates with Some s => Some s | None => User.status u end;
     User.profilePicture :=
       match Updates.profilePicture updates with
       | Some p => Some p
       | None => User.profilePicture u
       end;
     User.createdAt := User.createdAt u;
     User.updatedAt := Some (now e);
     User.lastSeen :=
       match Updates.lastSeen updates with Some t => Some t | None => User.lastSeen u end |}.

Definition updateUser (e : Env) (userId : string) (updates : Updates.t) (d : Disk)
  : Disk * option User.t :=
  match list_find (λ u, User.id u = userId) (getUsers d) with
  | None => (d, None)
  | Some (userIndex, u) =>
      let u' := apply_updates e u updates in
      (writeUsers e (<[userIndex := u']> (getUsers d)) d, Some u')
  end.

Definition getContacts (d : Disk) : gmap string (list Contact.t) := contacts d.

Definition getUserContacts (userId : string) (d : Disk) : list Contact.t :=
  default [] (getContacts d !! userId).

Definition addContact (e : Env) (userId contactId : string) (d : Disk) : Disk :=
  let mine := default [] (getContacts d !! userId) in
  if decide (Exists (λ c, Contact.contactId c = contactId) mine) then d
  else
    let edge := Contact.mk userId contactId (now e) in
    writeContacts e (<[userId := mine ++ [edge]]> (getContacts d)) d.

Definition getMessages (d : Disk) : list Message.t := messages d.

(** [Array.prototype.sort] with the comparator
    [new Date(a.timestamp).getTime() - new Date(b.timestamp).getTime()]:
    a stable sort on the timestamp, here by insertion. *)
Fixpoint insert_by_time (m : Message.t) (l : list Message.t) : list Message.t :=
  match l with
  | [] => [m]
  | x :: r =>
      if Message.timestamp m <=? Message.timestamp x then m :: l
      else x :: insert_by_time m r
  end.

Definition sort_by_time (l : list Message.t) : list Message.t :=
  foldr insert_by_time [] l.

Definition between (userId1 userId2 : string) (m : Message.t) : Prop :=
  (Message.senderId m = userId1 ∧ Message.receiverId m = userId2) ∨
  (Message.senderId m = userId2 ∧ Message.receiverId m = userId1).

Global Instance between_dec a b m : Decision (between a b m).
Proof. unfold between. apply _. Defined.

Definition getConversationMessages (userId1 userId2 : string) (d : Disk) : list Message.t :=
  sort_by_time (filter (between userId1 userId2) (getMessages d)).

Definition createMessage (e : Env) (message : NewMessage.t) (d : Disk) : Disk * Message.t :=
  let newMessage :=
    {| Message.id := gen_id e;
       Message.senderId := NewMessage.senderId message;
       Message.receiverId := NewMessage.receiverId message;
       Message.content := NewMessage.content message;
       Message.timestamp := now e;
       Message.read := false |} in
  (writeMessages e (getMessages d ++ [newMessage]) d, newMessage).

Definition unread_from (userId otherUserId : string) (m : Message.t) : Prop :=
  Message.senderId m = otherUserId ∧ Message.receiverId m = userId ∧ Message.read m = false.

Global Instance unread_from_dec a b m : Decision (unread_from a b m).
Proof. unfold unread_from. apply _. Defined.

Definition set_read (m : Message.t) : Message.t :=
  {| Message.id := Message.id m;
     Message.senderId := Message.senderId m;
     Message.receiverId := Message.receiverId m;
     Message.content := Message.content m;
     Message.timestamp := Message.timestamp m;
     Message.read := true |}.

Definition markMessagesAsRead (e : Env) (userId otherUserId : string) (d : Disk) : Disk :=
  let updated :=
    (λ m, if decide (unread_from userId otherUserId m) then set_read m else m)
      <$> getMessages d in
  writeMessages e updated d.

(** ** HTTP layer *)

Record Response := mkResponse {
  resp_status : nat;
  resp_body : JVal;
}.

(** [NextResponse.json(v)] and [NextResponse.json(v, { status })] *)
Definition json (v : JVal) : Response := mkResponse 200 v.
Definition json_status (v : JVal) (st : nat) : Response := mkResponse st v.

Definition error_body (msg : string) : JVal := JObj [("error", JStr msg)].

Definition unauthorized : Response := json_status (error_body "Unauthorized") 401.

(** A string that passes an [if (x)] test, as [Some]; [session?.user?.id]
    of the caller is read through it. *)
Definition nonempty (v : option string) : option string :=
  match v with
  | Some s => if truthy (Some s) then Some s else None
  | None => None
  end.

Definition message_json (m : Message.t) : JVal :=
  JObj [("id", JStr (Message.id m));
        ("senderId", JStr (Message.senderId m));
        ("receiverId", JStr (Message.receiverId m));
        ("content", JStr (Message.content m));
        ("timestamp", JDate (Message.timestamp m));
        ("read", JBool (Message.read m))].

Definition user_fields (u : User.t) : list (string * JVal) :=
  [("id", JStr (User.id u));
   ("phone", JStr (User.phone u));
   ("password", JStr (User.password u));
   ("name", JStr (User.name u))]
  ++ jopt "status" JStr (User.status u)
  ++ jopt "profilePicture" JStr (User.profilePicture u)
  ++ [("createdAt", JDate (User.createdAt u))]
  ++ jopt "updatedAt" JDate (User.updatedAt u)
  ++ jopt "lastSeen" JDate (User.lastSeen u).

Definition user_json (u : User.t) : JVal := JObj (user_fields u).

(** [const { password: _, ...userWithoutPassword } = user] *)
Definition userWithoutPassword (u : User.t) : JVal := JObj (omit "password" (user_fields u)).

(** *** [api/messages/route.ts] *)

Definition messages_GET (e : Env) (session userId : option string) (d : Disk)
  : Disk * Response :=
  match nonempty session with
  | None => (d, unauthorized)
  | Some me =>
      match nonempty userId with
      | None => (d, json_status (error_body "User ID is required") 400)
      | Some otherUserId =>
          let messages := getConversationMessages me otherUserId d in
          let d' := markMessagesAsRead e me otherUserId d in
          (d', json (JArr (message_json <$> messages)))
      end
  end.

Definition messages_POST (e : Env) (session : option string) (body : gmap string string)
    (d : Disk) : Disk * Response :=
  match nonempty session with
  | None => (d, unauthorized)
  | Some me =>
      match nonempty (body !! "receiverId"), nonempty (body !! "content") with
      | Some receiverId, Some content =>
          let '(d', message) :=
            createMessage e (NewMessage.mk me receiverId (trim content)) d in
          (d', json_status (message_json message) 201)
      | _, _ => (d, json_status (error_body "Receiver ID and content are required") 400)
      end
  end.

(** *** Presence *)

Definition OFFLINE_THRESHOLD : Z := 5 * 60 * 1000.

(** [user.lastSeen ? new Date(user.lastSeen).getTime() : 0] *)
Definition lastSeen_ms (u : User.t) : Z := default 0 (User.lastSeen u).

Definition isOnline (e : Env) (u : User.t) : bool :=
  now e - lastSeen_ms u <? OFFLINE_THRESHOLD.

(** *** [api/contacts/route.ts] *)

Module ContactView.
Record t := mk {
  id : string;
  name : string;
  phone : string;
  status : string;
  profilePicture : string;
  addedAt : Time;
  isOnline : bool;
  lastSeen : option Time;
}.
End ContactView.

Definition contactView_json (c : ContactView.t) : JVal :=
  JObj ([("id", JStr (ContactView.id c));
         ("name", JStr (ContactView.name c));
         ("phone", JStr (ContactView.phone c));
         ("status", JStr (ContactView.status c));
         ("profilePicture", JStr (ContactView.profilePicture c));
         ("addedAt", JDate (ContactView.addedAt c));
         ("isOnline", JBool (ContactView.isOnline c))]
        ++ jopt "lastSeen" JDate (ContactView.lastSeen c)).

(** The [contacts.map(...).filter(Boolean)] of the handler. *)
Definition contactsWithUserData (e : Env) (me : string) (d : Disk) : list ContactView.t :=
  omap (λ contact,
          match getUserById (Contact.contactId contact) d with
          | None => None
          | Some user =>
              Some {| ContactView.id := User.id user;
                      ContactView.name := User.name user;
                      ContactView.phone := User.phone user;
                      ContactView.status := or_empty (User.status user);
                      ContactView.profilePicture := or_empty (User.profilePicture user);
                      ContactView.addedAt := Contact.addedAt contact;
                      ContactView.isOnline := isOnline e user;
                      ContactView.lastSeen := User.lastSeen user |}
          end)
       (getUserContacts me d).

Definition contacts_GET (e : Env) (session : option string) (d : Disk) : Disk * Response :=
  match nonempty session with
  | None => (d, unauthorized)
  | Some me => (d, json (JArr (contactView_json <$> contactsWithUserData e me d)))
  end.

Definition placeholder (phone name : string) : NewUser.t :=
  {| NewUser.phone := phone;
     NewUser.password := EmptyString;
     NewUser.name := name;
     NewUser.status := None;
     NewUser.profilePicture := None;
     NewUser.updatedAt := None;
     NewUser.lastSeen := None |}.

Definition contacts_POST (e : Env) (session : option string) (body : gmap string string)
    (d : Disk) : Disk * Response :=
  match nonempty session with
  | None => (d, unauthorized)
  | Some me =>
      match nonempty (body !! "contactId") with
      | Some contactId =>
          match getUserById contactId d with
          | None => (d, json_status (error_body "User not found") 404)
          | Some contactUser =>
              if decide (contactId = me)
              then (d, json_status (error_body "Cannot add yourself as a contact") 400)
              else (addContact e me contactId d,
                    json_status
                      (JObj [("success", JBool true); ("contact", user_json contactUser)])
                      201)
          end
      | None =>
          match nonempty (body !! "phone"), nonempty (body !! "name") with
          | Some phone, Some name =>
              let normalizedPhone := strip_spaces phone in
              if negb (phoneRegex_test normalizedPhone)
              then (d, json_status
                         (error_body "Invalid phone number format. Please enter 10-15 digits.")
                         400)
              else
                let '(d1, contactUser) :=
                  match getUserByPhone normalizedPhone d with
                  | Some u => (d, u)
                  | None => createUser e (placeholder normalizedPhone (trim name)) d
                  end in
                if decide (User.id contactUser = me)
                then (d1, json_status (error_body "Cannot add yourself as a contact") 400)
                else if decide (Exists (λ c, Contact.contactId c = User.id contactUser)
                                       (getUserContacts me d1))
                then (d1, json_status
                            (error_body "This contact is already in your contact list") 400)
                else (addContact e me (User.id contactUser) d1,
                      json_status
                        (JObj [("success", JBool true);
                               ("contact", userWithoutPassword contactUser)])
                        201)
          | _, _ =>
              (d, json_status
                    (error_body "Either contactId or phone and name are required") 400)
          end
      end
  end.

(** *** [api/users/status/route.ts] *)

Definition heartbeat_updates (e : Env) : Updates.t :=
  {| Updates.name := None;
     Updates.status := None;
     Updates.profilePicture := None;
     Updates.updatedAt := None;
     Updates.lastSeen := Some (now e) |}.

Definition status_POST (e : Env) (session : option string) (d : Disk) : Disk * Response :=
  match nonempty session with
  | None => (d, unauthorized)
  | Some me =>
      let '(d', _) := updateUser e me (heartbeat_updates e) d in
      (d', json (JObj [("success", JBool true)]))
  end.

Module StatusEntry.
Record t := mk {
  isOnline : bool;
  lastSeen : option Time;
}.
End StatusEntry.

Definition statusEntry_json (s : StatusEntry.t) : JVal :=
  JObj ([("isOnline", JBool (StatusEntry.isOnline s))]
        ++ jopt "lastSeen" JDate (StatusEntry.lastSeen s)).

(** The [userIds.forEach] loop filling [statusMap]. *)
Definition statusMap (e : Env) (userIds : list string) (d : Disk)
  : gmap string StatusEntry.t :=
  foldl (λ acc userId,
           match snd <$> list_find (λ u, User.id u = userId) (getUsers d) with
           | Some user =>
               <[userId := StatusEntry.mk (isOnline e user) (User.lastSeen user)]> acc
           | None => acc
           end)
        ∅ userIds.

(** [searchParams.get('userIds')?.split(',') || []] *)
Definition parse_userIds (param : option string) : list string :=
  match param with
  | Some s => split_comma s
  | None => []
  end.

Definition status_GET (e : Env) (session userIds : option string) (d : Disk)
  : Disk * Response :=
  match nonempty session with
  | None => (d, unauthorized)
  | Some _ =>
      (d, json (JObj (prod_map id statusEntry_json
                        <$> map_to_list (statusMap e (parse_userIds userIds) d))))
  end.

(** *** [api/users/[id]/route.ts] *)

Definition users_id_GET (session : option string) (id : string) (d : Disk)
  : Disk * Response :=
  match nonempty session with
  | None => (d, unauthorized)
  | Some _ =>
      match getUserById id d with
      | None => (d, json_status (error_body "User not found") 404)
      | Some user => (d, json (userWithoutPassword user))
      end
  end.

(** *** [api/profile/route.ts] *)

Definition profile_GET (session : option string) (d : Disk) : Disk * Response :=
  match nonempty session with
  | None => (d, unauthorized)
  | Some me =>
      match getUserById me d with
      | None => (d, json_status (error_body "User not found") 404)
      | Some user => (d, json (userWithoutPassword user))
      end
  end.

(** The [updates] object the handler assembles from the three properties
    it destructures out of the body. *)
Definition profile_updates (body : gmap string string) : Updates.t :=
  {| Updates.name := body !! "name";
     Updates.status := body !! "status";
     Updates.profilePicture := body !! "profilePicture";
     Updates.updatedAt := None;
     Updates.lastSeen := None |}.

Definition profile_PUT (e : Env) (session : option string) (body : gmap string string)
    (d : Disk) : Disk * Response :=
  match nonempty session with
  | None => (d, unauthorized)
  | Some me =>
      match updateUser e me (profile_updates body) d with
      | (d', None) => (d', json_status (error_body "User not found") 404)
      | (d', Some updatedUser) => (d', json (userWithoutPassword updatedUser))
      end
  end.

(** *** Registration, login and the request loop

    [bcryptjs] is outside the repository: its two entry points are taken
    as they are. *)

Module Identity.
Record t := mk {
  id : string;
  phone : string;
  name : string;
}.
End Identity.

Section Crypto.
(** [bcrypt.hash(password, 10)] *)
Variable bcrypt_hash : string → string.
(** [bcrypt.compare(password, hash)] *)
Variable bcrypt_compare : string → string → bool.

(** [api/auth/register/route.ts] *)
Definition register_POST (e : Env) (body : gmap string string) (d : Disk)
  : Disk * Response :=
  match nonempty (body !! "phone"), nonempty (body !! "password"),
        nonempty (body !! "name") with
  | Some phone, Some password, Some name =>
      if negb (phoneRegex_test (strip_spaces phone))
      then (d, json_status
                 (error_body "Invalid phone number format. Please enter 10-15 digits.")
                 400)
      else
        let normalizedPhone := strip_spaces phone in
        match getUserByPhone normalizedPhone d with
        | Some _ =>
            (d, json_status (error_body "User with this phone number already exists") 400)
        | None =>
            let hashedPassword := bcrypt_hash password in
            let '(d', user) :=
              createUser e
                {| NewUser.phone := normalizedPhone;
                   NewUser.password := hashedPassword;
                   NewUser.name := name;
                   NewUser.status := None;
                   NewUser.profilePicture := None;
                   NewUser.updatedAt := None;
                   NewUser.lastSeen := None |} d in
            (d', json_status (userWithoutPassword user) 201)
        end
  | _, _, _ =>
      (d, json_status (error_body "Phone number, password, and name are required") 400)
  end.

(** The [authorize] callback of the credentials provider; [None] is the
    [null] that makes the login fail. *)
Definition authorize (credentials : option (gmap string string)) (d : Disk)
  : option Identity.t :=
  match credentials with
  | None => None
  | Some c =>
      match nonempty (c !! "phone"), nonempty (c !! "password") with
      | Some phone, Some password =>
          let normalizedPhone := strip_spaces phone in
          match getUserByPhone normalizedPhone d with
          | None => None
          | Some user =>
              if bcrypt_compare password (User.password user)
              then Some (Identity.mk (User.id user) (User.phone user) (User.name user))
              else None
          end
      | _, _ => None
      end
  end.

Inductive Request :=
| Register (body : gmap string string)
| GetMessages (session userId : option string)
| PostMessages (session : option string) (body : gmap string string)
| GetContacts (session : option string)
| PostContacts (session : option string) (body : gmap string string)
| PostStatus (session : option string)
| GetStatus (session userIds : option string)
| GetUser (session : option string) (id : string)
| GetProfile (session : option string)
| PutProfile (session : option string) (body : gmap string string).

Definition handle (e : Env) (r : Request) (d : Disk) : Disk * Response :=
  match r with
  | Register body => register_POST e body d
  | GetMessages session userId => messages_GET e session userId d
  | PostMessages session body => messages_POST e session body d
  | GetContacts session => contacts_GET e session d
  | PostContacts session body => contacts_POST e session body d
  | PostStatus session => status_POST e session d
  | GetStatus session userIds => status_GET e session userIds d
  | GetUser session id => users_id_GET session id d
  | GetProfile session => profile_GET session d
  | PutProfile session body => profile_PUT e session body d
  end.

(** The stores the server can be in: the empty data directory, and
    whatever a request leaves behind. *)
Inductive reachable : Disk → Prop :=
| reachable_init : reachable empty_disk
| reachable_step d e r : reachable d → reachable (handle e r d).1.
End Crypto.

(** ** Specification vocabulary and sample data *)

(** Ascending order of timestamps. *)
Definition time_le (a b : Message.t) : Prop := Message.timestamp a ≤ Message.timestamp b.

Definition env0 : Env := mkEnv 1700000000000 "k3j9x0q2a" true.

Definition inbox0 : Disk :=
  mkDisk [] ∅
    [Message.mk "m1" "bob" "alice" "hi" 10 false;
     Message.mk "m2" "alice" "bob" "hello" 20 false;
     Message.mk "m3" "carol" "alice" "yo" 30 false].

(** The presence entry the handlers derive from a user record. *)
Definition presence_of (e : Env) (u : User.t) : StatusEntry.t :=
  StatusEntry.mk (isOnline e u) (User.lastSeen u).

(** Every edge of the contact file, as (owner, contact) pairs. *)
Definition all_edges (d : Disk) : list (string * string) :=
  map_to_list (contacts d)
    ≫= (λ kc, (λ c, (Contact.userId c, Contact.contactId c)) <$> kc.2).

(** Per owner: no contact id twice, and every edge filed under its owner. *)
Definition edges_unique (cs : gmap string (list Contact.t)) : Prop :=
  ∀ owner mine, cs !! owner = Some mine →
    NoDup (Contact.contactId <$> mine) ∧ Forall (λ c, Contact.userId c = owner) mine.

(** A hash standing in for bcrypt in the sample runs. *)
Definition toy_hash (password : string) : string := "$2a$10$" +:+ password.
Definition toy_compare (password hash : string) : bool :=
  bool_decide (toy_hash password = hash).

Definition alice : User.t :=
  User.mk "1700000000001alice" "5551234567" (toy_hash "secret1") "Alice"
    (Some EmptyString) (Some EmptyString) 1700000000001 None None.

Definition bob : User.t :=
  User.mk "1700000000002bob" "5559876543" (toy_hash "secret2") "Bob"
    (Some EmptyString) (Some EmptyString) 1700000000002 None None.

(** Alice and Bob registered, Alice has Bob as a contact. *)
Definition disk_ab : Disk :=
  mkDisk [alice; bob]
    {[ User.id alice := [Contact.mk (User.id alice) (User.id bob) 1700000000003] ]}
    [].

(** The requests that lead from the empty data directory to [disk_ab]. *)
Definition env1 : Env := mkEnv 1700000000001 "alice" true.
Definition env2 : Env := mkEnv 1700000000002 "bob" true.
Definition env3 : Env := mkEnv 1700000000003 "q7w8e9r0t" true.

Definition register_alice : Request :=
  Register {[ "phone" := "555 123 4567"; "password" := "secret1"; "name" := "Alice" ]}.
Definition register_bob : Request :=
  Register {[ "phone" := "5559876543"; "password" := "secret2"; "name" := "Bob" ]}.
Definition alice_adds_bob : Request :=
  PostContacts (Some (User.id alice)) {[ "contactId" := User.id bob ]}.

(** [disk_ab] after a heartbeat of Bob at 1700000000004. *)
Definition disk_ab_seen : Disk :=
  mkDisk
    [alice;
     User.mk "1700000000002bob" "5559876543" (toy_hash "secret2") "Bob"
       (Some EmptyString) (Some EmptyString) 1700000000002 (Some 1700000000004)
       (Some 1700000000004)]
    (contacts disk_ab) [].

(** Four minutes after that heartbeat. *)
Definition env_4min : Env := mkEnv (1700000000004 + 4 * 60 * 1000) "z" true.

(** Alice and Bob registered, no contact yet. *)
Definition disk_registered : Disk := mkDisk [alice; bob] ∅ [].

(** The user record [createUser] files for an unknown phone number added
    as a contact. *)
Definition placeholder_user (e : Env) (phone name : string) : User.t :=
  User.mk (gen_id e) (strip_spaces phone) EmptyString (trim name)
    (Some EmptyString) (Some EmptyString) (now e) None None.

(** A user record after a heartbeat at the time of [e]. *)
Definition seen_at (e : Env) (u : User.t) : User.t :=
  User.mk (User.id u) (User.phone u) (User.password u) (User.name u) (User.status u)
    (User.profilePicture u) (User.createdAt u) (Some (now e)) (Some (now e)).

(** ** Further code: user search, session callbacks, client helpers *)

(** [String.prototype.toLowerCase] on code units below 256: the ASCII
    capitals and the Latin-1 capitals (all of 192..222 but the
    multiplication sign 215) move up by 32. *)
Definition lower_ascii (a : ascii) : ascii :=
  let n := nat_of_ascii a in
  let ascii_capital := andb (65 <=? n)%nat (n <=? 90)%nat in
  let latin1_capital :=
    andb (andb (192 <=? n)%nat (n <=? 222)%nat) (negb (n =? 215)%nat) in
  if orb ascii_capital latin1_capital then ascii_of_nat (n + 32) else a.

Fixpoint toLowerCase (s : string) : string :=
  match s with
  | EmptyString => EmptyString
  | String a r => String (lower_ascii a) (toLowerCase r)
  end.

(** [s.includes(sub)] *)
Fixpoint includes (s sub : string) : bool :=
  String.prefix sub s
  || match s with
     | EmptyString => false
     | String _ r => includes r sub
     end.

(** *** [api/users/search/route.ts] *)

Module SearchHit.
Record t := mk {
  id : string;
  name : string;
  phone : string;
}.
End SearchHit.

Definition searchHit_json (h : SearchHit.t) : JVal :=
  JObj [("id", JStr (SearchHit.id h));
        ("name", JStr (SearchHit.name h));
        ("phone", JStr (SearchHit.phone h))].

(** The predicate of the handler's [allUsers.filter(...)]. *)
Definition search_match (me query : string) (contactIds : gset string) (user : User.t)
  : Prop :=
  User.id user ≠ me
  ∧ (User.id user ∉ contactIds)
  ∧ (includes (toLowerCase (User.name user)) (toLowerCase query) = true
     ∨ includes (User.phone user) (strip_spaces query) = true).

Global Instance search_match_dec me query contactIds user :
  Decision (search_match me query contactIds user).
Proof. unfold search_match. apply _. Defined.

Definition filteredUsers (me : string) (q : option string) (d : Disk) : list SearchHit.t :=
  let query := or_empty q in
  let allUsers := getUsers d in
  let userContacts := getUserContacts me d in
  let contactIds : gset string := list_to_set (Contact.contactId <$> userContacts) in
  (λ user, SearchHit.mk (User.id user) (User.name user) (User.phone user))
    <$> filter (search_match me query contactIds) allUsers.

Definition users_search_GET (session q : option string) (d : Disk) : Disk * Response :=
  match nonempty session with
  | None => (d, unauthorized)
  | Some me => (d, json (JArr (searchHit_json <$> filteredUsers me q d)))
  end.

(** *** The [jwt] and [session] callbacks of [lib/auth]

    A token and the [user] object of a session are objects with string
    properties; assigning [undefined] to a property is modelled by its
    removal. *)

Definition jwt_callback (token : gmap string string) (user : option Identity.t)
  : gmap string string :=
  match user with
  | Some u =>
      <["name" := Identity.name u]>
        (<["phone" := Identity.phone u]> (<["id" := Identity.id u]> token))
  | None => token
  end.

Record Session := mkSession {
  session_user : option (gmap string string);
  session_expires : string;
}.

Definition session_callback (session : Session) (token : option (gmap string string))
  : Session :=
  match session_user session, token with
  | Some user, Some token =>
      let assign k (o : gmap string string) := partial_alter (λ _, token !! k) k o in
      mkSession (Some (assign "name" (assign "phone" (assign "id" user))))
        (session_expires session)
  | _, _ => session
  end.

(** [session?.user?.id], what every route handler reads. *)
Definition session_user_id (session : option Session) : option string :=
  match session with
  | Some s =>
      match session_user s with
      | Some user => user !! "id"
      | None => None
      end
  | None => None
  end.

(** *** Client helpers of the chat page *)

(** [getUnreadCount(contactId)] over the messages the page holds, for the
    signed-in user [me]. *)
Definition getUnreadCount (me : option string) (contactId : string)
    (messages : list Message.t) : nat :=
  length (filter (λ m, Some (Message.receiverId m) = me
                       ∧ Message.senderId m = contactId
                       ∧ Message.read m = false) messages).

Section Client.
(** [Date.prototype.toLocaleDateString()], which depends on the locale of
    the browser. *)
Variable toLocaleDateString : Time → string.

Definition plural (n : Z) : string := if 1 <? n then "s" else EmptyString.

(** [formatLastSeen(lastSeen)] at clock value [now]. *)
Definition formatLastSeen (now lastSeen : Time) : string :=
  let diffMs := now - lastSeen in
  let diffMins := diffMs / 60000 in
  let diffHours := diffMs / 3600000 in
  let diffDays := diffMs / 86400000 in
  if diffMins <? 1 then "just now"
  else if diffMins <? 60 then pretty diffMins +:+ " minute" +:+ plural diffMins +:+ " ago"
  else if diffHours <? 24 then pretty diffHours +:+ " hour" +:+ plural diffHours +:+ " ago"
  else if diffDays <? 7 then pretty diffDays +:+ " day" +:+ plural diffDays +:+ " ago"
  else toLocaleDateString lastSeen.
End Client.

(** ** Vocabulary for histories of requests *)

(** [reaches hash d d']: some sequence of requests leads from [d] to [d']. *)
Inductive reaches (hash : string → string) : Disk → Disk → Prop :=
| reaches_refl d : reaches hash d d
| reaches_step d d' e r : reaches hash d d' → reaches hash d (handle hash e r d').1.

(** Two versions of a user record with the same identity fields. *)
Definition same_identity (u u' : User.t) : Prop :=
  User.id u' = User.id u ∧ User.phone u' = User.phone u
  ∧ User.password u' = User.password u ∧ User.createdAt u' = User.createdAt u.

(** [l'] still holds every record of [l], at its place, up to [R]. *)
Definition kept {A} (R : A → A → Prop) (l l' : list A) : Prop :=
  ∀ (j : nat) (x : A), l !! j = Some x → ∃ x', l' !! j = Some x' ∧ R x x'.

(** Two versions of a message: equal but for a read flag that may have
    been raised. *)
Definition same_message (m m' : Message.t) : Prop :=
  Message.id m' = Message.id m ∧ Message.senderId m' = Message.senderId m
  ∧ Message.receiverId m' = Message.receiverId m
  ∧ Message.content m' = Message.content m
  ∧ Message.timestamp m' = Message.timestamp m
  ∧ (Message.read m = true → Message.read m' = true).

(** Phones are normalised, valid and pairwise distinct. *)
Definition phones_wf (us : list User.t) : Prop :=
  NoDup (User.phone <$> us) ∧ Forall (λ u, phoneRegex_test (User.phone u) = true) us.

(** No list is filed under the empty id and nobody is their own contact. *)
Definition owners_wf (cs : gmap string (list Contact.t)) : Prop :=
  ∀ owner mine, cs !! owner = Some mine →
    owner ≠ EmptyString ∧ Forall (λ c, Contact.contactId c ≠ owner) mine.

Definition message_wf (m : Message.t) : Prop :=
  Message.senderId m ≠ EmptyString ∧ Message.receiverId m ≠ EmptyString
  ∧ trim (Message.content m) = Message.content m.

(** More sample data. *)
Definition carol_placeholder : User.t := placeholder_user env3 "555 000 1111" " Carol ".

Definition disk_abc : Disk :=
  mkDisk [alice; bob; carol_placeholder]
    {[ User.id alice := [Contact.mk (User.id alice) (gen_id env3) (now env3)] ]} [].

Definition hello : Message.t :=
  Message.mk (gen_id env0) (User.id alice) (User.id bob) "hi" (now env0) false.

(** The writes of the record store, each under the conditions every
    handler establishes before it calls it. *)
Inductive store_write : Disk → Disk → Prop :=
| write_createUser e user d :
    getUserByPhone (NewUser.phone user) d = None →
    phoneRegex_test (NewUser.phone user) = true →
    store_write d (createUser e user d).1
| write_updateUser e userId updates d :
    store_write d (updateUser e userId updates d).1
| write_addContact e userId contactId d :
    userId ≠ EmptyString → contactId ≠ userId →
    store_write d (addContact e userId contactId d)
| write_createMessage e message d :
    NewMessage.senderId message ≠ EmptyString →
    NewMessage.receiverId message ≠ EmptyString →
    trim (NewMessage.content message) = NewMessage.content message →
    store_write d (createMessage e message d).1
| write_markMessagesAsRead e userId otherUserId d :
    store_write d (markMessagesAsRead e userId otherUserId d).

(** The record [register_POST] files for a new account. *)
Definition registered_user (hash : string → string) (e : Env) (phone password name : string)
  : User.t :=
  User.mk (gen_id e) (strip_spaces phone) (hash password) name
    (Some EmptyString) (Some EmptyString) (now e) None None.

Definition alice_says_hi : Request :=
  PostMessages (Some (User.id alice)) {[ "receiverId" := User.id bob; "content" := " hi " ]}.

(** [disk_ab] once Alice has sent "hi" to Bob. *)
Definition disk_hi : Disk := mkDisk (users disk_ab) (contacts disk_ab) [hello].

(** The session a request comes with; registration takes none. *)
Definition request_session (r : Request) : option (option string) :=
  match r with
  | Register _ => None
  | GetMessages session _ | PostMessages session _ | GetContacts session
  | PostContacts session _ | PostStatus session | GetStatus session _
  | GetUser session _ | GetProfile session | PutProfile session _ => Some session
  end.

(** The row of GET /contacts for the edge [c] to the user [u]. *)
Definition contact_row (e : Env) (c : Contact.t) (u : User.t) : ContactView.t :=
  ContactView.mk (User.id u) (User.name u) (User.phone u)
    (or_empty (User.status u)) (or_empty (User.profilePicture u))
    (Contact.addedAt c) (isOnline e u) (User.lastSeen u).

(** [ids.join(',')], with which the chat page builds the userIds parameter
    of GET /users/status. *)
Fixpoint join_comma (l : list string) : string :=
  match l with
  | [] => EmptyString
  | [x] => x
  | x :: r => x +:+ "," +:+ join_comma r
  end.

Fixpoint has_comma (s : string) : bool :=
  match s with
  | EmptyString => false
  | String a r => bool_decide (a = ","%char) || has_comma r
  end.

(** Characters an id made by [createUser] or [createMessage] consists of
    (decimal and base-36 digits) and more: the ASCII letters and digits. A
    URL carries them, and the comma, in a query value as they are. *)
Definition url_plain (a : ascii) : bool :=
  let n := nat_of_ascii a in
  orb (andb (48 <=? n)%nat (n <=? 57)%nat)
    (orb (andb (65 <=? n)%nat (n <=? 90)%nat) (andb (97 <=? n)%nat (n <=? 122)%nat)).

Fixpoint plain_id (s : string) : bool :=
  match s with
  | EmptyString => true
  | String a r => url_plain a && plain_id r
  end.

Fixpoint plain_or_comma (s : string) : bool :=
  match s with
  | EmptyString => true
  | String a r => (url_plain a || bool_decide (a = ","%char)) && plain_or_comma r
  end.

Example strip_spaces_ex : strip_spaces "123 456 7890" = "1234567890".
Proof. reflexivity. Qed.

Example trim_ex : trim "  hi there  " = "hi there".
Proof. reflexivity. Qed.

Example split_comma_ex : split_comma "a,b,,c" = ["a"; "b"; ""; "c"].
Proof. reflexivity. Qed.

Example split_comma_empty : split_comma "" = [""].
Proof. reflexivity. Qed.

Example phoneRegex_ex :
  phoneRegex_test "5551234567" = true ∧ phoneRegex_test "555123456" = false
  ∧ phoneRegex_test "555123456a" = false ∧ phoneRegex_test "1234567890123456" = false.
Proof. repeat split; reflexivity. Qed.

(** ** Basic facts about the helpers *)

Lemma nonempty_Some (s : string) : s ≠ EmptyString → nonempty (Some s) = Some s.
Proof.
  intros Hs. unfold nonempty, truthy.
  rewrite bool_decide_eq_false_2 by done. done.
Qed.

Lemma nonempty_inv (v : option string) (s : string) :
  nonempty v = Some s → v = Some s ∧ s ≠ EmptyString.
Proof.
  destruct v as [x|]; simpl; [|done].
  case_bool_decide; simpl; [done|]. intros [= ->]. done.
Qed.

Lemma nonempty_None (v : option string) :
  nonempty v = None ↔ v = None ∨ v = Some EmptyString.
Proof.
  destruct v as [x|]; simpl.
  - case_bool_decide; simpl; subst; split; try done; try tauto.
    intros [?|[= ?]]; done.
  - tauto.
Qed.

Lemma trim_nonempty (s : string) : trim s ≠ EmptyString → s ≠ EmptyString.
Proof. intros H ->. by apply H. Qed.

Lemma write_frame_messages e ms d :
  users (writeMessages e ms d) = users d ∧ contacts (writeMessages e ms d) = contacts d.
Proof. unfold writeMessages. by destruct (fs_writable e). Qed.

(** ** Sending a message *)


(** An authenticated POST /messages whose receiverId or content is missing
    or the empty string is answered 400 and leaves the store as it was; with
    a non-empty receiverId and a content that is non-empty after trimming,
    the message made of the caller, the receiver, the trimmed content, a
    newly generated id, the current time and read=false is appended to the
    message list and returned with 201. *)
Theorem messages_POST_spec (e : Env) (me : string) (body : gmap string string) (d : Disk) :
  me ≠ EmptyString →
  fs_writable e = true →
  (nonempty (body !! "receiverId") = None ∨ nonempty (body !! "content") = None →
   messages_POST e (Some me) body d
   = (d, json_status (error_body "Receiver ID and content are required") 400))
  ∧ (∀ receiverId content,
       body !! "receiverId" = Some receiverId → receiverId ≠ EmptyString →
       body !! "content" = Some content → trim content ≠ EmptyString →
       let m := Message.mk (gen_id e) me receiverId (trim content) (now e) false in
       messages_POST e (Some me) body d
       = (mkDisk (users d) (contacts d) (messages d ++ [m]),
          json_status (message_json m) 201)).
Proof.
  intros Hme Hw. unfold messages_POST. rewrite (nonempty_Some me Hme). split.
  - intros [H|H]; rewrite H; [done|].
    by destruct (nonempty (body !! "receiverId")).
  - intros receiverId content Hr Hrne Hc Hcne. simpl.
    rewrite Hr, Hc, (nonempty_Some _ Hrne), (nonempty_Some _ (trim_nonempty _ Hcne)).
    unfold createMessage, writeMessages, getMessages. simpl. by rewrite Hw.
Qed.

Lemma messages_POST_spec_witness :
  messages_POST env0 (Some "1700000000001alice")
    {[ "receiverId" := "1700000000002bob"; "content" := "  hi " ]} empty_disk
  = (mkDisk [] ∅
       [Message.mk (gen_id env0) "1700000000001alice" "1700000000002bob" "hi"
          (now env0) false],
     json_status
       (message_json
          (Message.mk (gen_id env0) "1700000000001alice" "1700000000002bob" "hi"
             (now env0) false)) 201).
Proof.
  refine (proj2 (messages_POST_spec env0 "1700000000001alice"
                   {[ "receiverId" := "1700000000002bob"; "content" := "  hi " ]}
                   empty_disk _ _) "1700000000002bob" "  hi " _ _ _ _);
    first [ discriminate | reflexivity ].
Defined.

(** The emptiness test of the handler looks at the content as it was sent,
    the trim comes after it: a content that is not empty but consists of
    blanks only is stored as the empty string and answered 201. *)
Lemma messages_POST_blank_general (e : Env) (me receiverId content : string)
    (body : gmap string string) (d : Disk) :
  me ≠ EmptyString → fs_writable e = true →
  body !! "receiverId" = Some receiverId → receiverId ≠ EmptyString →
  body !! "content" = Some content → content ≠ EmptyString →
  trim content = EmptyString →
  messages_POST e (Some me) body d
  = (mkDisk (users d) (contacts d)
       (messages d ++ [Message.mk (gen_id e) me receiverId EmptyString (now e) false]),
     json_status
       (message_json (Message.mk (gen_id e) me receiverId EmptyString (now e) false))
       201).
Proof.
  intros Hme Hw Hr Hrne Hc Hcne Hblank. unfold messages_POST.
  rewrite (nonempty_Some _ Hme), Hr, Hc, (nonempty_Some _ Hrne), (nonempty_Some _ Hcne).
  unfold createMessage, writeMessages, getMessages. simpl. by rewrite Hw, Hblank.
Qed.

(** C1 at a content of three blanks: Alice posts it to Bob on the empty
    message file. The content is empty after trimming, so the request should
    be answered 400 and file nothing; the handler answers 201 and appends a
    message whose content is the empty string. *)
Theorem messages_POST_blank_content_stored :
  trim "   " = EmptyString
  ∧ messages_POST env0 (Some "1700000000001alice")
      {[ "receiverId" := "1700000000002bob"; "content" := "   " ]} empty_disk
    = (mkDisk [] ∅
         [Message.mk (gen_id env0) "1700000000001alice" "1700000000002bob" EmptyString
            (now env0) false],
       json_status
         (message_json
            (Message.mk (gen_id env0) "1700000000001alice" "1700000000002bob"
               EmptyString (now env0) false)) 201)
  ∧ resp_status
      (messages_POST env0 (Some "1700000000001alice")
         {[ "receiverId" := "1700000000002bob"; "content" := "   " ]} empty_disk).2
    ≠ 400%nat
  ∧ messages
      (messages_POST env0 (Some "1700000000001alice")
         {[ "receiverId" := "1700000000002bob"; "content" := "   " ]} empty_disk).1
    ≠ messages empty_disk.
Proof.
  split; [reflexivity|].
  rewrite (messages_POST_blank_general env0 "1700000000001alice" "1700000000002bob"
             "   " _ empty_disk) by first [ discriminate | reflexivity ].
  split_and!; [reflexivity | discriminate | discriminate].
Qed.

(** ** Read receipts *)

(** C3: on a writable data directory, markMessagesAsRead reader other turns
    exactly the messages sent by other to reader and still unread into their
    read=true copy, keeps every other message and every other field of every
    message, touches neither users nor contacts, and is what
    GET /messages?userId=other does to the store for the caller reader. *)
Theorem markMessagesAsRead_spec (e : Env) (reader other : string) (d : Disk) :
  fs_writable e = true →
  let d' := markMessagesAsRead e reader other d in
  users d' = users d ∧ contacts d' = contacts d
  ∧ length (messages d') = length (messages d)
  ∧ (∀ i m, messages d !! i = Some m →
       ∃ m', messages d' !! i = Some m'
         ∧ Message.id m' = Message.id m
         ∧ Message.senderId m' = Message.senderId m
         ∧ Message.receiverId m' = Message.receiverId m
         ∧ Message.content m' = Message.content m
         ∧ Message.timestamp m' = Message.timestamp m
         ∧ (unread_from reader other m → Message.read m' = true)
         ∧ (¬ unread_from reader other m → m' = m))
  ∧ (reader ≠ EmptyString → other ≠ EmptyString →
     (messages_GET e (Some reader) (Some other) d).1 = d').
Proof.
  intros Hw d'. subst d'. unfold markMessagesAsRead, writeMessages, getMessages.
  rewrite Hw. simpl. split_and!; try done.
  - by rewrite length_fmap.
  - intros i m Hi. rewrite list_lookup_fmap, Hi. simpl.
    eexists; split; [done|]. case_decide; simpl; split_and!; done.
  - intros Hr Ho. unfold messages_GET.
    rewrite (nonempty_Some _ Hr), (nonempty_Some _ Ho). simpl.
    unfold markMessagesAsRead, writeMessages, getMessages. by rewrite Hw.
Qed.


Lemma markMessagesAsRead_spec_witness :
  messages (messages_GET env0 (Some "alice") (Some "bob") inbox0).1
  = [Message.mk "m1" "bob" "alice" "hi" 10 true;
     Message.mk "m2" "alice" "bob" "hello" 20 false;
     Message.mk "m3" "carol" "alice" "yo" 30 false].
Proof.
  rewrite (proj2 (proj2 (proj2 (proj2
             (markMessagesAsRead_spec env0 "alice" "bob" inbox0 eq_refl)))));
    [ reflexivity | discriminate | discriminate ].
Defined.

(** ** Conversations *)


Lemma insert_by_time_perm m l : insert_by_time m l ≡ₚ m :: l.
Proof.
  induction l as [|x r IH]; simpl; [done|].
  destruct (Message.timestamp m <=? Message.timestamp x); [done|].
  rewrite IH. apply Permutation_swap.
Qed.

Lemma sort_by_time_perm l : sort_by_time l ≡ₚ l.
Proof.
  induction l as [|x r IH]; simpl; [done|].
  rewrite insert_by_time_perm. by rewrite IH.
Qed.

Lemma insert_by_time_sorted m l :
  StronglySorted time_le l → StronglySorted time_le (insert_by_time m l).
Proof.
  induction 1 as [|x r Hr IH Hx]; simpl.
  - repeat constructor.
  - destruct (Z.leb_spec (Message.timestamp m) (Message.timestamp x)) as [Hle|Hlt].
    + constructor; [by constructor|]. constructor; [done|].
      eapply Forall_impl; [exact Hx|]. unfold time_le. intros; lia.
    + constructor; [done|].
      rewrite insert_by_time_perm. constructor; [|done]. unfold time_le. lia.
Qed.

Lemma sort_by_time_sorted l : StronglySorted time_le (sort_by_time l).
Proof.
  induction l as [|x r IH]; simpl; [constructor|]. by apply insert_by_time_sorted.
Qed.

Lemma between_sym a b m : between a b m ↔ between b a m.
Proof. unfold between. tauto. Qed.

(** C4: the conversation of A with B and that of B with A are the same list;
    it holds exactly the stored messages exchanged between the two, each as
    often as it is stored, in ascending order of timestamp. *)
Theorem getConversationMessages_spec (A B : string) (d : Disk) :
  getConversationMessages A B d = getConversationMessages B A d
  ∧ (∀ m, m ∈ getConversationMessages A B d ↔ m ∈ messages d ∧ between A B m)
  ∧ getConversationMessages A B d ≡ₚ filter (between A B) (messages d)
  ∧ StronglySorted time_le (getConversationMessages A B d).
Proof.
  unfold getConversationMessages, getMessages. split_and!.
  - f_equal. apply list_filter_iff. intros m. apply between_sym.
  - intros m. rewrite sort_by_time_perm, list_elem_of_filter. tauto.
  - apply sort_by_time_perm.
  - apply sort_by_time_sorted.
Qed.

Lemma getConversationMessages_spec_witness :
  getConversationMessages "alice" "bob" inbox0 = getConversationMessages "bob" "alice" inbox0
  ∧ StronglySorted time_le (getConversationMessages "alice" "bob" inbox0).
Proof.
  split.
  - apply (proj1 (getConversationMessages_spec "alice" "bob" inbox0)).
  - apply (proj2 (proj2 (proj2 (getConversationMessages_spec "alice" "bob" inbox0)))).
Defined.

Example getConversationMessages_ex :
  getConversationMessages "alice" "bob"
    (mkDisk [] ∅
       [Message.mk "m1" "bob" "alice" "late" 30 false;
        Message.mk "m2" "alice" "carol" "other" 5 false;
        Message.mk "m3" "alice" "bob" "early" 10 true;
        Message.mk "m4" "bob" "alice" "tie" 30 true])
  = [Message.mk "m3" "alice" "bob" "early" 10 true;
     Message.mk "m1" "bob" "alice" "late" 30 false;
     Message.mk "m4" "bob" "alice" "tie" 30 true].
Proof. reflexivity. Qed.

(** ** Presence *)

Lemma isOnline_iff e u :
  isOnline e u = true ↔ now e - lastSeen_ms u < 5 * 60 * 1000.
Proof. unfold isOnline, OFFLINE_THRESHOLD. apply Z.ltb_lt. Qed.

Lemma statusMap_snoc e l x d :
  statusMap e (l ++ [x]) d
  = match getUserById x d with
    | Some user => <[x := presence_of e user]> (statusMap e l d)
    | None => statusMap e l d
    end.
Proof. unfold statusMap. by rewrite foldl_snoc. Qed.

Lemma statusMap_lookup e l d uid :
  statusMap e l d !! uid
  = if decide (uid ∈ l) then presence_of e <$> getUserById uid d else None.
Proof.
  induction l as [|x l IH] using rev_ind.
  - case_decide as H; [by apply elem_of_nil in H|]. apply lookup_empty.
  - rewrite statusMap_snoc. destruct (decide (x = uid)) as [->|Hne].
    + rewrite decide_True by (apply elem_of_app; right; apply list_elem_of_singleton; done).
      destruct (getUserById uid d) as [u|] eqn:Hu; simpl.
      * by rewrite lookup_insert_eq.
      * rewrite IH. by case_decide.
    + assert (Hiff : uid ∈ l ++ [x] ↔ uid ∈ l).
      { rewrite elem_of_app, list_elem_of_singleton. intuition congruence. }
      destruct (getUserById x d); [rewrite lookup_insert_ne by done|];
        rewrite IH; apply decide_ext; by symmetry.
Qed.

Lemma jget_map_to_list {A} (f : A → JVal) (m : gmap string A) (k : string) :
  jget k (JObj (prod_map id f <$> map_to_list m)) = f <$> m !! k.
Proof.
  simpl.
  assert (Hgen : ∀ l : list (string * A),
             NoDup l.*1 →
             snd <$> List.find (λ kv : string * JVal, bool_decide (kv.1 = k))
                       (prod_map id f <$> l)
             = f <$> (list_to_map l : gmap string A) !! k).
  { induction l as [|[k' v] l IH]; intros Hnd; simpl.
    - by rewrite lookup_empty.
    - apply NoDup_cons in Hnd as [Hk' Hnd]. case_bool_decide as Hk; simpl in *.
      + subst. by rewrite lookup_insert_eq.
      + rewrite lookup_insert_ne by done. by apply IH. }
  rewrite Hgen by apply NoDup_fst_map_to_list. by rewrite list_to_map_to_list.
Qed.

Lemma contactView_json_reads (v : ContactView.t) :
  jget "id" (contactView_json v) = Some (JStr (ContactView.id v))
  ∧ jget "isOnline" (contactView_json v) = Some (JBool (ContactView.isOnline v))
  ∧ jget "lastSeen" (contactView_json v) = JDate <$> ContactView.lastSeen v.
Proof. destruct v as [i n ph st pp aa io ls]. destruct ls; repeat split. Qed.

(** C5: the online flag of a user is true exactly when the current time
    minus the lastSeen instant (the epoch when the user has none) is below
    five minutes, so a user seen four minutes ago is online and one seen six
    minutes ago is not; GET /users/status answers, for every requested id of
    an existing user, that flag with the stored lastSeen, and every row of
    GET /contacts carries the flag and the stored lastSeen of its user: the
    rows of the response body are those of the caller's contacts that have
    a user record, and each reads isOnline and lastSeen as just described. *)
Theorem presence_spec (e : Env) (d : Disk) :
  (∀ u, isOnline e u = true ↔ now e - default 0 (User.lastSeen u) < 5 * 60 * 1000)
  ∧ (∀ u t, User.lastSeen u = Some t → (isOnline e u = true ↔ now e - t < 5 * 60 * 1000))
  ∧ (∀ u, User.lastSeen u = Some (now e - 4 * 60 * 1000) → isOnline e u = true)
  ∧ (∀ u, User.lastSeen u = Some (now e - 6 * 60 * 1000) → isOnline e u = false)
  ∧ (∀ session userIds uid u,
       is_Some (nonempty session) →
       uid ∈ parse_userIds userIds → getUserById uid d = Some u →
       jget uid (resp_body (status_GET e session userIds d).2)
       = Some (JObj ([("isOnline", JBool (isOnline e u))]
                     ++ jopt "lastSeen" JDate (User.lastSeen u))))
  ∧ (∀ me v,
       v ∈ contactsWithUserData e me d ↔
       ∃ c u, c ∈ getUserContacts me d
              ∧ getUserById (Contact.contactId c) d = Some u
              ∧ v = ContactView.mk (User.id u) (User.name u) (User.phone u)
                      (or_empty (User.status u)) (or_empty (User.profilePicture u))
                      (Contact.addedAt c) (isOnline e u) (User.lastSeen u))
  ∧ (∀ me, me ≠ EmptyString →
       contacts_GET e (Some me) d
       = (d, json (JArr (contactView_json <$> contactsWithUserData e me d))))
  ∧ (∀ me, me ≠ EmptyString →
       ∃ rows, resp_body (contacts_GET e (Some me) d).2 = JArr rows
         ∧ (∀ row, row ∈ rows →
              ∃ c u, c ∈ getUserContacts me d
                     ∧ getUserById (Contact.contactId c) d = Some u
                     ∧ jget "id" row = Some (JStr (User.id u))
                     ∧ jget "isOnline" row = Some (JBool (isOnline e u))
                     ∧ jget "lastSeen" row = JDate <$> User.lastSeen u)
         ∧ (∀ c u, c ∈ getUserContacts me d →
              getUserById (Contact.contactId c) d = Some u →
              ∃ row, row ∈ rows
                     ∧ jget "id" row = Some (JStr (User.id u))
                     ∧ jget "isOnline" row = Some (JBool (isOnline e u))
                     ∧ jget "lastSeen" row = JDate <$> User.lastSeen u)).
Proof.
  assert (Hrows : ∀ me v,
             v ∈ contactsWithUserData e me d ↔
             ∃ c u, c ∈ getUserContacts me d
                    ∧ getUserById (Contact.contactId c) d = Some u
                    ∧ v = ContactView.mk (User.id u) (User.name u) (User.phone u)
                            (or_empty (User.status u)) (or_empty (User.profilePicture u))
                            (Contact.addedAt c) (isOnline e u) (User.lastSeen u)).
  { intros me v. unfold contactsWithUserData. rewrite list_elem_of_omap. split.
    - intros (c & Hc & Hv).
      destruct (getUserById (Contact.contactId c) d) as [u|] eqn:Hu; [|done].
      injection Hv as <-. by exists c, u.
    - intros (c & u & Hc & Hu & ->). exists c. by rewrite Hu. }
  split_and!.
  - intros u. apply isOnline_iff.
  - intros u t Ht. rewrite isOnline_iff. unfold lastSeen_ms. by rewrite Ht.
  - intros u Ht. apply isOnline_iff. unfold lastSeen_ms. rewrite Ht. simpl. lia.
  - intros u Ht. apply not_true_is_false. rewrite isOnline_iff.
    unfold lastSeen_ms. rewrite Ht. simpl. lia.
  - intros session userIds uid u [me Hme] Hin Hu. unfold status_GET. rewrite Hme.
    cbn [snd resp_body json]. rewrite jget_map_to_list, statusMap_lookup.
    rewrite decide_True by done. by rewrite Hu.
  - apply Hrows.
  - intros me Hme. unfold contacts_GET. by rewrite (nonempty_Some _ Hme).
  - intros me Hme. exists (contactView_json <$> contactsWithUserData e me d).
    unfold contacts_GET. rewrite (nonempty_Some _ Hme). split; [done|]. split.
    + intros row (v & -> & Hv)%list_elem_of_fmap.
      apply Hrows in Hv as (c & u & Hc & Hu & ->). exists c, u.
      split; [done|]. split; [done|]. apply contactView_json_reads.
    + intros c u Hc Hu.
      exists (contactView_json
                (ContactView.mk (User.id u) (User.name u) (User.phone u)
                   (or_empty (User.status u)) (or_empty (User.profilePicture u))
                   (Contact.addedAt c) (isOnline e u) (User.lastSeen u))).
      split; [|apply contactView_json_reads].
      apply list_elem_of_fmap. eexists. split; [done|].
      apply Hrows. by exists c, u.
Qed.

Lemma presence_spec_witness :
  isOnline env0 (User.mk "u1" "5550001111" "h" "Ann" None None 5 None
                   (Some (now env0 - 4 * 60 * 1000))) = true
  ∧ jget (User.id bob)
      (resp_body (status_GET env_4min (Some (User.id alice))
                    (Some "1700000000002bob,nobody") disk_ab_seen).2)
    = Some (JObj [("isOnline", JBool true); ("lastSeen", JDate 1700000000004)])
  ∧ (∃ row, row ∈ match resp_body (contacts_GET env_4min (Some (User.id alice))
                                     disk_ab_seen).2 with
                  | JArr rows => rows
                  | _ => []
                  end
            ∧ jget "id" row = Some (JStr (User.id bob))
            ∧ jget "isOnline" row = Some (JBool true)
            ∧ jget "lastSeen" row = Some (JDate 1700000000004)).
Proof.
  split; [|split].
  3:{ destruct (proj2 (proj2 (proj2 (proj2 (proj2 (proj2 (proj2
                 (presence_spec env_4min disk_ab_seen)))))))
                 (User.id alice)) as (rows & Hbody & _ & Hall); [discriminate|].
      rewrite Hbody.
      apply (Hall (Contact.mk (User.id alice) (User.id bob) 1700000000003)
               (User.mk "1700000000002bob" "5559876543" (toy_hash "secret2") "Bob"
                  (Some EmptyString) (Some EmptyString) 1700000000002
                  (Some 1700000000004) (Some 1700000000004)));
        [apply list_elem_of_here | reflexivity]. }
  - apply (proj1 (proj2 (proj2 (presence_spec env0 empty_disk)))). reflexivity.
  - apply (proj1 (proj2 (proj2 (proj2 (proj2 (presence_spec env_4min disk_ab_seen)))))
             (Some (User.id alice)) (Some "1700000000002bob,nobody") (User.id bob)
             (User.mk "1700000000002bob" "5559876543" (toy_hash "secret2") "Bob"
                (Some EmptyString) (Some EmptyString) 1700000000002 (Some 1700000000004)
                (Some 1700000000004))).
    + eexists. reflexivity.
    + vm_compute. left.
    + reflexivity.
Defined.

(** ** The contact directory *)

Lemma createUser_frame e nu d :
  contacts (createUser e nu d).1 = contacts d
  ∧ messages (createUser e nu d).1 = messages d.
Proof. unfold createUser, writeUsers. simpl. by destruct (fs_writable e). Qed.

Lemma updateUser_frame e userId updates d :
  contacts (updateUser e userId updates d).1 = contacts d
  ∧ messages (updateUser e userId updates d).1 = messages d.
Proof.
  unfold updateUser, writeUsers.
  destruct (list_find _ _) as [[i u]|]; simpl; [|done]. by destruct (fs_writable e).
Qed.

Lemma addContact_frame e userId contactId d :
  users (addContact e userId contactId d) = users d
  ∧ messages (addContact e userId contactId d) = messages d.
Proof.
  unfold addContact, writeContacts. case_decide; [done|]. by destruct (fs_writable e).
Qed.

Lemma addContact_present e userId contactId d :
  Exists (λ c, Contact.contactId c = contactId) (getUserContacts userId d) →
  addContact e userId contactId d = d.
Proof. intros H. unfold addContact. by rewrite decide_True. Qed.

Lemma addContact_edges_unique e userId contactId d :
  edges_unique (contacts d) → edges_unique (contacts (addContact e userId contactId d)).
Proof.
  intros Hinv. unfold addContact, writeContacts, getContacts.
  case_decide as Hex; [done|]. destruct (fs_writable e); [|done]. simpl.
  intros owner mine. destruct (decide (userId = owner)) as [->|Hne].
  - rewrite lookup_insert_eq. intros [= <-].
    assert (Hold : NoDup (Contact.contactId <$> default [] (contacts d !! owner))
                   ∧ Forall (λ c, Contact.userId c = owner)
                       (default [] (contacts d !! owner))).
    { destruct (contacts d !! owner) as [cs|] eqn:Hcs; simpl.
      - by apply Hinv.
      - split; constructor. }
    destruct Hold as [Hnd Hown]. split.
    + rewrite fmap_app. simpl. apply NoDup_app. split_and!; [done| |apply NoDup_singleton].
      intros x Hx ->%list_elem_of_singleton. apply Hex.
      apply list_elem_of_fmap in Hx as (c & Hc & Hin).
      apply Exists_exists. by exists c.
    + apply Forall_app. split; [done|]. by repeat constructor.
  - rewrite lookup_insert_ne by done. apply Hinv.
Qed.

Lemma contacts_POST_contacts e session body d :
  contacts (contacts_POST e session body d).1 = contacts d
  ∨ ∃ userId contactId d1,
      contacts d1 = contacts d
      ∧ contacts (contacts_POST e session body d).1
        = contacts (addContact e userId contactId d1).
Proof.
  unfold contacts_POST.
  destruct (nonempty session) as [me|]; [|by left].
  destruct (nonempty (body !! "contactId")) as [contactId|].
  - destruct (getUserById contactId d); [|by left].
    case_decide; [by left|]. right. by exists me, contactId, d.
  - destruct (nonempty (body !! "phone")) as [phone|]; [|by left].
    destruct (nonempty (body !! "name")) as [name|]; [|by left].
    destruct (negb _); [by left|].
    destruct (getUserByPhone (strip_spaces phone) d) as [u|].
    + case_decide; [by left|]. case_decide; [by left|]. right. by exists me, (User.id u), d.
    + destruct (createUser e _ d) as [d1 nu] eqn:Hcu.
      assert (Hc : contacts d1 = contacts d).
      { replace d1 with (createUser e (placeholder (strip_spaces phone) (trim name)) d).1
          by (by rewrite Hcu). apply createUser_frame. }
      case_decide; [by left|]. case_decide; [by left|]. right. by exists me, (User.id nu), d1.
Qed.

(** Name the store a destructured call returned as the first component
    of that call again. *)
Ltac store_of call :=
  match goal with
  | H : call = (?d', _) |- _ => replace d' with (call).1 by (by rewrite H)
  end.

Ltac store_of_write :=
  match goal with
  | H : createUser ?e ?nu ?d = _ |- _ => store_of (createUser e nu d)
  | H : updateUser ?e ?i ?up ?d = _ |- _ => store_of (updateUser e i up d)
  | H : createMessage ?e ?nm ?d = _ |- _ => store_of (createMessage e nm d)
  end.

Lemma handle_edges_unique hash e r d :
  edges_unique (contacts d) → edges_unique (contacts (handle hash e r d).1).
Proof.
  intros Hinv. destruct r; simpl.
  - unfold register_POST. repeat case_match; simpl; try done.
    store_of_write. by rewrite (proj1 (createUser_frame _ _ _)).
  - unfold messages_GET. repeat case_match; simpl; try done.
    unfold markMessagesAsRead. by rewrite (proj2 (write_frame_messages _ _ _)).
  - unfold messages_POST. repeat case_match; simpl; try done.
    store_of_write. unfold createMessage. simpl.
    by rewrite (proj2 (write_frame_messages _ _ _)).
  - unfold contacts_GET. by case_match.
  - destruct (contacts_POST_contacts e session body d) as [->|(u & c & d1 & H1 & ->)];
      [done|]. apply addContact_edges_unique. by rewrite H1.
  - unfold status_POST. repeat case_match; simpl; try done.
    store_of_write. by rewrite (proj1 (updateUser_frame _ _ _ _)).
  - unfold status_GET. by case_match.
  - unfold users_id_GET. by repeat case_match.
  - unfold profile_GET. by repeat case_match.
  - unfold profile_PUT. repeat case_match; simpl; try done;
      store_of_write; by rewrite (proj1 (updateUser_frame _ _ _ _)).
Qed.

Lemma reachable_edges_unique hash d : reachable hash d → edges_unique (contacts d).
Proof.
  induction 1 as [|d e r _ IH].
  - intros owner mine. simpl. by rewrite lookup_empty.
  - by apply handle_edges_unique.
Qed.

Lemma edges_unique_NoDup d : edges_unique (contacts d) → NoDup (all_edges d).
Proof.
  intros Hinv. unfold all_edges. apply NoDup_bind.
  - intros [k1 cs1] [k2 cs2] [o c] H1%elem_of_map_to_list H2%elem_of_map_to_list.
    simpl. intros (c1 & [= -> ->] & Hc1)%list_elem_of_fmap
                  (c2 & [= Ho Hc] & Hc2)%list_elem_of_fmap.
    destruct (Hinv _ _ H1) as [_ Hf1]. destruct (Hinv _ _ H2) as [_ Hf2].
    rewrite Forall_forall in Hf1, Hf2.
    assert (k1 = k2) as -> by (rewrite <- (Hf1 _ Hc1), <- (Hf2 _ Hc2); done).
    congruence.
  - intros [k cs] Hk%elem_of_map_to_list. simpl.
    destruct (Hinv _ _ Hk) as [Hnd _].
    apply (NoDup_fmap_1 snd). by rewrite <- list_fmap_compose.
  - apply NoDup_map_to_list.
Qed.

Lemma disk_ab_trace :
  disk_ab
  = (handle toy_hash env3 alice_adds_bob
       (handle toy_hash env2 register_bob
          (handle toy_hash env1 register_alice empty_disk).1).1).1.
Proof. vm_compute. reflexivity. Qed.

Lemma disk_ab_reachable : reachable toy_hash disk_ab.
Proof. rewrite disk_ab_trace. repeat apply reachable_step. apply reachable_init. Qed.

(** C6: in every store reachable from the empty one no (owner, contact)
    pair is filed twice; and POST /contacts with a contactId answers 404
    when no user has that id, 400 when it is the caller's own id, and 201
    without changing anything when the edge is already there. *)
Theorem contacts_POST_byId_spec :
  (∀ hash d, reachable hash d → NoDup (all_edges d) ∧ edges_unique (contacts d))
  ∧ (∀ e owner target body d,
       owner ≠ EmptyString → target ≠ EmptyString →
       body !! "contactId" = Some target →
       (getUserById target d = None →
        contacts_POST e (Some owner) body d
        = (d, json_status (error_body "User not found") 404))
       ∧ (is_Some (getUserById target d) → target = owner →
          contacts_POST e (Some owner) body d
          = (d, json_status (error_body "Cannot add yourself as a contact") 400))
       ∧ (∀ u, getUserById target d = Some u → target ≠ owner →
            Exists (λ c, Contact.contactId c = target) (getUserContacts owner d) →
            contacts_POST e (Some owner) body d
            = (d, json_status
                    (JObj [("success", JBool true); ("contact", user_json u)]) 201))).
Proof.
  split.
  - intros hash d Hd. pose proof (reachable_edges_unique _ _ Hd) as Hinv.
    split; [by apply edges_unique_NoDup|done].
  - intros e owner target body d Ho Ht Hb. unfold contacts_POST.
    rewrite (nonempty_Some _ Ho), Hb, (nonempty_Some _ Ht). split_and!.
    + by intros ->.
    + intros [u ->] Heq. by rewrite decide_True.
    + intros u -> Hne Hex. rewrite decide_False by done.
      by rewrite addContact_present.
Qed.

Lemma contacts_POST_byId_spec_witness :
  NoDup (all_edges disk_ab)
  ∧ contacts_POST env0 (Some (User.id alice)) {[ "contactId" := User.id bob ]} disk_ab
    = (disk_ab,
       json_status (JObj [("success", JBool true); ("contact", user_json bob)]) 201)
  ∧ contacts_POST env0 (Some (User.id alice)) {[ "contactId" := "nobody" ]} disk_ab
    = (disk_ab, json_status (error_body "User not found") 404)
  ∧ contacts_POST env0 (Some (User.id alice)) {[ "contactId" := User.id alice ]} disk_ab
    = (disk_ab, json_status (error_body "Cannot add yourself as a contact") 400).
Proof.
  split_and!.
  - apply (proj1 contacts_POST_byId_spec toy_hash disk_ab disk_ab_reachable).
  - apply (proj2 contacts_POST_byId_spec env0 (User.id alice) (User.id bob)
             {[ "contactId" := User.id bob ]} disk_ab);
      [discriminate | discriminate | reflexivity | reflexivity | discriminate |].
    apply Exists_cons_hd. reflexivity.
  - apply (proj2 contacts_POST_byId_spec env0 (User.id alice) "nobody"
             {[ "contactId" := "nobody" ]} disk_ab);
      [discriminate | discriminate | reflexivity | reflexivity].
  - apply (proj2 contacts_POST_byId_spec env0 (User.id alice) (User.id alice)
             {[ "contactId" := User.id alice ]} disk_ab);
      [discriminate | discriminate | reflexivity | by eexists | reflexivity].
Defined.

Lemma phoneRegex_nonempty (phone : string) :
  phoneRegex_test (strip_spaces phone) = true → phone ≠ EmptyString.
Proof. intros H ->. discriminate H. Qed.

Lemma getUserByPhone_created (p : string) (nu : User.t) (d : Disk) cs ms :
  getUserByPhone p d = None → User.phone nu = p →
  getUserByPhone p (mkDisk (users d ++ [nu]) cs ms) = Some nu.
Proof.
  unfold getUserByPhone, getUsers. simpl. intros Hnone Hp.
  destruct (list_find _ (users d)) as [[i u]|] eqn:Hf; [done|].
  rewrite list_find_app_r by done. simpl. by rewrite decide_True.
Qed.

(** C7: for an authenticated owner and a phone that is 10 to 15 digits once
    its blanks are removed and that no user has, POST /contacts with phone
    and name (the generated id being new to the owner) files one new user
    with an empty password and one edge from the owner to it, answering 201;
    the same request again, whatever the clock, files nothing and is answered
    400 because the contact is already in the list. *)
Theorem contacts_POST_byPhone_spec (e e2 : Env) (owner phone name : string)
    (body : gmap string string) (d : Disk) :
  owner ≠ EmptyString →
  fs_writable e = true →
  nonempty (body !! "contactId") = None →
  body !! "phone" = Some phone →
  body !! "name" = Some name → name ≠ EmptyString →
  phoneRegex_test (strip_spaces phone) = true →
  getUserByPhone (strip_spaces phone) d = None →
  gen_id e ≠ owner →
  ¬ Exists (λ c, Contact.contactId c = gen_id e) (getUserContacts owner d) →
  let newUser := placeholder_user e phone name in
  let edge := Contact.mk owner (gen_id e) (now e) in
  let d1 := mkDisk (users d ++ [newUser])
              (<[owner := getUserContacts owner d ++ [edge]]> (contacts d))
              (messages d) in
  contacts_POST e (Some owner) body d
  = (d1, json_status
           (JObj [("success", JBool true); ("contact", userWithoutPassword newUser)]) 201)
  ∧ User.password newUser = EmptyString
  ∧ length (users d1) = S (length (users d))
  ∧ getUserContacts owner d1 = getUserContacts owner d ++ [edge]
  ∧ (∀ other, other ≠ owner → getUserContacts other d1 = getUserContacts other d)
  ∧ contacts_POST e2 (Some owner) body d1
    = (d1, json_status (error_body "This contact is already in your contact list") 400).
Proof.
  intros Ho Hw Hcid Hp Hn Hnne Hre Hnone Hid Hnew newUser edge d1.
  assert (Hmine : getUserContacts owner d1 = getUserContacts owner d ++ [edge]).
  { unfold getUserContacts, getContacts, d1. simpl. by rewrite lookup_insert_eq. }
  split_and!.
  - unfold contacts_POST.
    rewrite (nonempty_Some _ Ho), Hcid, Hp, Hn, (nonempty_Some _ Hnne),
      (nonempty_Some _ (phoneRegex_nonempty _ Hre)), Hre, Hnone.
    cbn [negb]. unfold createUser, writeUsers, placeholder. rewrite Hw. cbn -[gen_id].
    rewrite decide_False by done. rewrite decide_False by done.
    unfold addContact, writeContacts, getContacts. cbn -[gen_id].
    rewrite decide_False by done. by rewrite Hw.
  - done.
  - unfold d1. simpl. rewrite length_app. simpl. lia.
  - done.
  - intros other Hne. unfold getUserContacts, getContacts, d1. simpl.
    by rewrite lookup_insert_ne.
  - unfold contacts_POST.
    rewrite (nonempty_Some _ Ho), Hcid, Hp, Hn, (nonempty_Some _ Hnne),
      (nonempty_Some _ (phoneRegex_nonempty _ Hre)), Hre.
    cbn [negb]. unfold d1 at 1.
    rewrite (getUserByPhone_created _ newUser d) by done.
    rewrite decide_False by done. fold d1. rewrite decide_True; [done|].
    rewrite Hmine. apply Exists_app. right. by apply Exists_cons_hd.
Qed.

Lemma contacts_POST_byPhone_spec_witness :
  contacts_POST env3 (Some (User.id alice))
    {[ "phone" := "555 000 1111"; "name" := " Carol " ]} disk_registered
  = (mkDisk [alice; bob; placeholder_user env3 "555 000 1111" " Carol "]
       {[ User.id alice := [Contact.mk (User.id alice) (gen_id env3) (now env3)] ]} [],
     json_status
       (JObj [("success", JBool true);
              ("contact",
               userWithoutPassword (placeholder_user env3 "555 000 1111" " Carol "))])
       201).
Proof.
  refine (proj1 (contacts_POST_byPhone_spec env3 env0 (User.id alice)
                   "555 000 1111" " Carol "
                   {[ "phone" := "555 000 1111"; "name" := " Carol " ]}
                   disk_registered _ _ _ _ _ _ _ _ _ _));
    first [ discriminate | reflexivity | idtac ].
  intros H. apply Exists_nil in H. exact H.
Defined.

(** ** Heartbeat and profile updates *)

Lemma updateUser_found e userId updates d i u :
  fs_writable e = true →
  list_find (λ u, User.id u = userId) (users d) = Some (i, u) →
  updateUser e userId updates d
  = (mkDisk (<[i := apply_updates e u updates]> (users d)) (contacts d) (messages d),
     Some (apply_updates e u updates)).
Proof.
  intros Hw Hf. unfold updateUser, writeUsers, getUsers. by rewrite Hf, Hw.
Qed.

(** C8, as the code has it: the heartbeat of an authenticated caller with
    a user record sets lastSeen and the updatedAt bookkeeping timestamp of
    the caller's record to the current time and changes nothing else: its
    id, phone, password, name, status, profilePicture and createdAt, every
    other user record, the contacts and the messages stay as they were. *)
Theorem status_POST_spec (e : Env) (caller : string) (d : Disk) (u : User.t) :
  caller ≠ EmptyString →
  fs_writable e = true →
  getUserById caller d = Some u →
  let d' := (status_POST e (Some caller) d).1 in
  ∃ i : nat,
    users d !! i = Some u
    ∧ users d' = <[i := seen_at e u]> (users d)
    ∧ users d' !! i = Some (seen_at e u)
    ∧ (∀ j : nat, j ≠ i → users d' !! j = users d !! j)
    ∧ getUserById caller d' = Some (seen_at e u)
    ∧ contacts d' = contacts d
    ∧ messages d' = messages d.
Proof.
  intros Hc Hw Hu d'. unfold getUserById, getUsers in Hu.
  destruct (list_find _ (users d)) as [[i u0]|] eqn:Hf; [|done].
  injection Hu as ->. exists i.
  assert (Hd' : d' = mkDisk (<[i := seen_at e u]> (users d)) (contacts d) (messages d)).
  { unfold d', status_POST. rewrite (nonempty_Some _ Hc).
    by rewrite (updateUser_found _ _ _ _ _ _ Hw Hf). }
  apply list_find_Some in Hf as (Hi & Hid & Hfirst).
  assert (Hlt : (i < length (users d))%nat) by (by eapply lookup_lt_Some).
  rewrite Hd'. simpl. split_and!; try done.
  - by apply list_lookup_insert_eq.
  - intros j Hj. by apply list_lookup_insert_ne.
  - unfold getUserById, getUsers. simpl.
    assert (Hf' : list_find (λ x, User.id x = caller) (<[i := seen_at e u]> (users d))
                  = Some (i, seen_at e u)).
    { apply list_find_Some. split_and!.
      - by apply list_lookup_insert_eq.
      - done.
      - intros j y Hy Hji. rewrite list_lookup_insert_ne in Hy by lia. by eapply Hfirst. }
    by rewrite Hf'.
Qed.

Lemma status_POST_spec_witness :
  users (status_POST env0 (Some (User.id bob)) disk_ab).1 = [alice; seen_at env0 bob].
Proof.
  destruct (status_POST_spec env0 (User.id bob) disk_ab bob) as (i & Hi & Hus & _);
    [discriminate | reflexivity | reflexivity |].
  rewrite Hus. destruct i as [|[|i]]; [discriminate Hi | reflexivity | discriminate Hi].
Defined.

(** C8 as written fails: besides lastSeen the heartbeat rewrites updatedAt,
    a field of the caller's record. *)
Lemma status_POST_touches_updatedAt :
  User.updatedAt <$> getUserById (User.id alice) disk_ab = Some None
  ∧ User.updatedAt
      <$> getUserById (User.id alice) (status_POST env0 (Some (User.id alice)) disk_ab).1
    = Some (Some (now env0))
  ∧ (status_POST env0 (Some (User.id alice)) disk_ab).1
    ≠ mkDisk
        [User.mk (User.id alice) (User.phone alice) (User.password alice)
           (User.name alice) (User.status alice) (User.profilePicture alice)
           (User.createdAt alice) (User.updatedAt alice) (Some (now env0));
         bob]
        (contacts disk_ab) (messages disk_ab).
Proof. split_and!; [reflexivity | reflexivity | discriminate]. Qed.

Lemma profile_PUT_fst e session me body d :
  nonempty session = Some me →
  (profile_PUT e session body d).1 = (updateUser e me (profile_updates body) d).1.
Proof.
  intros Hs. unfold profile_PUT. rewrite Hs.
  by destruct (updateUser e me (profile_updates body) d) as [d' [u|]].
Qed.

(** C10: whatever the body of PUT /profile holds, the request changes at
    most the caller's own record, and in it neither id, phone, password,
    createdAt nor lastSeen; contacts and messages are not touched. *)
Theorem profile_PUT_frame (e : Env) (session : option string) (body : gmap string string)
    (d : Disk) :
  let d' := (profile_PUT e session body d).1 in
  contacts d' = contacts d
  ∧ messages d' = messages d
  ∧ length (users d') = length (users d)
  ∧ ∀ (j : nat) (u : User.t), users d !! j = Some u →
      ∃ u', users d' !! j = Some u'
        ∧ User.id u' = User.id u
        ∧ User.phone u' = User.phone u
        ∧ User.password u' = User.password u
        ∧ User.createdAt u' = User.createdAt u
        ∧ User.lastSeen u' = User.lastSeen u
        ∧ (session ≠ Some (User.id u) → u' = u).
Proof.
  intros d'. subst d'.
  destruct (nonempty session) as [me|] eqn:Hs.
  2:{ unfold profile_PUT. rewrite Hs. simpl. split_and!; try done.
      intros j u Hj. by exists u. }
  rewrite (profile_PUT_fst _ _ _ _ _ Hs). apply nonempty_inv in Hs as [-> Hme].
  unfold updateUser, writeUsers, getUsers.
  destruct (list_find _ (users d)) as [[i u0]|] eqn:Hf; simpl.
  2:{ split_and!; try done. intros j u Hj. by exists u. }
  destruct (fs_writable e); simpl.
  2:{ split_and!; try done. intros j u Hj. by exists u. }
  apply list_find_Some in Hf as (Hi & Hid & _).
  split_and!; try done.
  - by rewrite length_insert.
  - intros j u Hj. destruct (decide (i = j)) as [->|Hne].
    + rewrite Hi in Hj. injection Hj as ->.
      exists (apply_updates e u (profile_updates body)).
      rewrite list_lookup_insert_eq by (by eapply lookup_lt_Some).
      split_and!; try done. intros Hneq. by rewrite Hid in Hneq.
    + exists u. by rewrite list_lookup_insert_ne.
Qed.

Lemma profile_PUT_frame_witness :
  ∃ u', users (profile_PUT env0 (Some (User.id bob))
                 {[ "name" := "Robert"; "password" := "x" ]} disk_ab).1 !! 0%nat = Some u'
        ∧ u' = alice.
Proof.
  destruct (proj2 (proj2 (proj2
              (profile_PUT_frame env0 (Some (User.id bob))
                 {[ "name" := "Robert"; "password" := "x" ]} disk_ab)))
              0%nat alice eq_refl)
    as (u' & Hu' & _ & _ & _ & _ & _ & Hsame).
  exists u'. split; [exact Hu'|]. apply Hsame. discriminate.
Defined.

Example profile_PUT_ex :
  users (profile_PUT env0 (Some (User.id bob))
           {[ "name" := "Robert"; "password" := "x"; "id" := "1700000000001alice";
              "phone" := "0000000000"; "lastSeen" := "never" ]} disk_ab).1
  = [alice;
     User.mk (User.id bob) (User.phone bob) (User.password bob) "Robert"
       (User.status bob) (User.profilePicture bob) (User.createdAt bob)
       (Some (now env0)) (User.lastSeen bob)].
Proof. reflexivity. Qed.

(** ** Login *)

(** C9: a login for a phone no user has and a login for a known phone with
    a password that does not match its hash end the same way: authorize
    returns null in both, so the two results are equal. *)
Theorem authorize_failure_generic (bcrypt_compare : string → string → bool)
    (credentials : gmap string string) (phone password : string)
    (d_unknown d_wrong : Disk) (user : User.t) :
  credentials !! "phone" = Some phone →
  credentials !! "password" = Some password →
  getUserByPhone (strip_spaces phone) d_unknown = None →
  getUserByPhone (strip_spaces phone) d_wrong = Some user →
  bcrypt_compare password (User.password user) = false →
  authorize bcrypt_compare (Some credentials) d_unknown = None
  ∧ authorize bcrypt_compare (Some credentials) d_wrong = None
  ∧ authorize bcrypt_compare (Some credentials) d_unknown
    = authorize bcrypt_compare (Some credentials) d_wrong.
Proof.
  intros Hp Hpw Hu Hw Hcmp.
  assert (H1 : authorize bcrypt_compare (Some credentials) d_unknown = None).
  { unfold authorize. rewrite Hp, Hpw.
    destruct (nonempty (Some phone)) as [p|] eqn:Hnp; [|done].
    destruct (nonempty (Some password)) as [q|] eqn:Hnq; [|done].
    apply nonempty_inv in Hnp as [[= ->] _]. by rewrite Hu. }
  assert (H2 : authorize bcrypt_compare (Some credentials) d_wrong = None).
  { unfold authorize. rewrite Hp, Hpw.
    destruct (nonempty (Some phone)) as [p|] eqn:Hnp; [|done].
    destruct (nonempty (Some password)) as [q|] eqn:Hnq; [|done].
    apply nonempty_inv in Hnp as [[= ->] _]. apply nonempty_inv in Hnq as [[= ->] _].
    by rewrite Hw, Hcmp. }
  by rewrite H1, H2.
Qed.

Lemma authorize_failure_generic_witness :
  authorize toy_compare
    (Some {[ "phone" := "555 123 4567"; "password" := "guess" ]}) empty_disk
  = authorize toy_compare
      (Some {[ "phone" := "555 123 4567"; "password" := "guess" ]}) disk_ab.
Proof.
  apply (authorize_failure_generic toy_compare
           {[ "phone" := "555 123 4567"; "password" := "guess" ]}
           "555 123 4567" "guess" empty_disk disk_ab alice);
    reflexivity.
Defined.

Example authorize_success :
  authorize toy_compare
    (Some {[ "phone" := "555 123 4567"; "password" := "secret1" ]}) disk_ab
  = Some (Identity.mk (User.id alice) "5551234567" "Alice").
Proof. reflexivity. Qed.

(** ** Passwords in response bodies *)

Lemma userWithoutPassword_hides (u : User.t) :
  has_key "password" (userWithoutPassword u) = false.
Proof.
  destruct u as [i ph pw n st pp ca ua ls].
  destruct st, pp, ua, ls; reflexivity.
Qed.

Lemma contactView_hides (c : ContactView.t) :
  has_key "password" (contactView_json c) = false.
Proof. destruct c as [i n ph st pp aa io ls]. destruct ls; reflexivity. Qed.

Lemma has_key_JArr_fmap {A} (f : A → JVal) (k : string) (l : list A) :
  (∀ x, has_key k (f x) = false) → has_key k (JArr (f <$> l)) = false.
Proof.
  intros Hf. change (existsb (has_key k) (f <$> l) = false).
  induction l as [|x l IH]; [done|].
  change (has_key k (f x) || existsb (has_key k) (f <$> l) = false).
  by rewrite Hf, IH.
Qed.

(** The endpoints that strip the password before answering. *)
Lemma stripping_endpoints_hide_password (hash : string → string) (e : Env)
    (session : option string) (body : gmap string string) (id : string) (d : Disk) :
  has_key "password" (resp_body (register_POST hash e body d).2) = false
  ∧ has_key "password" (resp_body (users_id_GET session id d).2) = false
  ∧ has_key "password" (resp_body (profile_GET session d).2) = false
  ∧ has_key "password" (resp_body (profile_PUT e session body d).2) = false
  ∧ has_key "password" (resp_body (contacts_GET e session d).2) = false
  ∧ (nonempty (body !! "contactId") = None →
     has_key "password" (resp_body (contacts_POST e session body d).2) = false).
Proof.
  split_and!.
  - unfold register_POST. repeat case_match; try reflexivity.
    cbn [snd resp_body json_status]. apply userWithoutPassword_hides.
  - unfold users_id_GET. repeat case_match; try reflexivity.
    apply userWithoutPassword_hides.
  - unfold profile_GET. repeat case_match; try reflexivity.
    apply userWithoutPassword_hides.
  - unfold profile_PUT. repeat case_match; try reflexivity.
    apply userWithoutPassword_hides.
  - unfold contacts_GET. case_match; [|reflexivity].
    apply has_key_JArr_fmap, contactView_hides.
  - intros Hcid. unfold contacts_POST. rewrite Hcid.
    destruct (nonempty session) as [me|]; [|reflexivity].
    destruct (nonempty (body !! "phone")) as [phone|]; [|reflexivity].
    destruct (nonempty (body !! "name")) as [name|]; [|reflexivity].
    destruct (negb _); [reflexivity|].
    destruct (match getUserByPhone (strip_spaces phone) d with
              | Some u => (d, u)
              | None => createUser e (placeholder (strip_spaces phone) (trim name)) d
              end) as [d1 contactUser].
    case_decide; [reflexivity|]. case_decide; [reflexivity|].
    cbn [snd resp_body json_status].
    change (false || (false || has_key "password" (userWithoutPassword contactUser) || false)
            = false).
    by rewrite userWithoutPassword_hides.
Qed.

(** C2 at POST /contacts with a contactId: Alice adds Bob by id and the 201
    answer carries Bob's whole user record, stored password hash included. *)
Theorem contacts_POST_byId_returns_password :
  contacts_POST env3 (Some (User.id alice)) {[ "contactId" := User.id bob ]}
    disk_registered
  = (disk_ab,
     json_status (JObj [("success", JBool true); ("contact", user_json bob)]) 201)
  ∧ has_key "password"
      (resp_body (contacts_POST env3 (Some (User.id alice))
                    {[ "contactId" := User.id bob ]} disk_registered).2) = true
  ∧ jget "contact"
      (resp_body (contacts_POST env3 (Some (User.id alice))
                    {[ "contactId" := User.id bob ]} disk_registered).2)
      ≫= jget "password"
    = Some (JStr (User.password bob)).
Proof. split_and!; vm_compute; reflexivity. Qed.

(** ** What a request can do to the store *)

Lemma trim_start_head (s : string) :
  match trim_start s with
  | EmptyString => True
  | String a _ => js_space a = false
  end.
Proof.
  induction s as [|a r IH]; simpl; [done|].
  destruct (js_space a) eqn:Ha; [done|]. simpl. done.
Qed.

Lemma trim_end_idemp (s : string) : trim_end (trim_end s) = trim_end s.
Proof.
  induction s as [|a r IH]; simpl; [done|].
  destruct (trim_end r) as [|b t] eqn:Hr.
  - destruct (js_space a) eqn:Ha; simpl; [done|]. by rewrite Ha.
  - simpl in *. by rewrite IH.
Qed.

Lemma trim_end_head (a : ascii) (r : string) :
  js_space a = false → ∃ t, trim_end (String a r) = String a t.
Proof.
  intros Ha. simpl. destruct (trim_end r); [rewrite Ha|]; eauto.
Qed.

Lemma trim_idemp (s : string) : trim (trim s) = trim s.
Proof.
  unfold trim. pose proof (trim_start_head s) as Hh.
  destruct (trim_start s) as [|a r] eqn:Hs; [done|].
  destruct (trim_end_head a r Hh) as [t Ht]. rewrite Ht.
  cbn [trim_start]. rewrite Hh. rewrite <- Ht. apply trim_end_idemp.
Qed.

Lemma handle_writes hash e r d : rtc store_write d (handle hash e r d).1.
Proof.
  destruct r; simpl.
  - unfold register_POST.
    destruct (nonempty (body !! "phone")) as [phone|]; [|done].
    destruct (nonempty (body !! "password")) as [password|]; [|done].
    destruct (nonempty (body !! "name")) as [name|]; [|done].
    destruct (negb _) eqn:Hre; [done|]. apply negb_false_iff in Hre.
    destruct (getUserByPhone _ d) eqn:Hp; [done|].
    destruct (createUser e _ d) as [d1 nu] eqn:Hcu. simpl.
    store_of_write. by apply rtc_once, write_createUser.
  - unfold messages_GET.
    destruct (nonempty session) as [me|]; [|done].
    destruct (nonempty userId) as [other|]; [|done].
    simpl. apply rtc_once, write_markMessagesAsRead.
  - unfold messages_POST.
    destruct (nonempty session) as [me|] eqn:Hs; [|done].
    destruct (nonempty (body !! "receiverId")) as [receiverId|] eqn:Hr; [|done].
    destruct (nonempty (body !! "content")) as [content|]; [|done].
    destruct (createMessage e _ d) as [d1 m] eqn:Hcm. simpl.
    store_of_write. apply rtc_once, write_createMessage; simpl.
    + by apply nonempty_inv in Hs as [_ ?].
    + by apply nonempty_inv in Hr as [_ ?].
    + apply trim_idemp.
  - unfold contacts_GET. by destruct (nonempty session).
  - unfold contacts_POST.
    destruct (nonempty session) as [me|] eqn:Hs; [|done].
    apply nonempty_inv in Hs as [_ Hme].
    destruct (nonempty (body !! "contactId")) as [contactId|].
    + destruct (getUserById contactId d); [|done].
      case_decide; [done|]. simpl. by apply rtc_once, write_addContact.
    + destruct (nonempty (body !! "phone")) as [phone|]; [|done].
      destruct (nonempty (body !! "name")) as [name|]; [|done].
      destruct (negb _) eqn:Hre; [done|]. apply negb_false_iff in Hre.
      destruct (getUserByPhone (strip_spaces phone) d) as [u|] eqn:Hp.
      * case_decide; [done|]. case_decide; [done|]. simpl.
        by apply rtc_once, write_addContact.
      * destruct (createUser e _ d) as [d1 nu] eqn:Hcu.
        assert (Hd1 : rtc store_write d d1).
        { store_of_write. by apply rtc_once, write_createUser. }
        case_decide; [done|]. case_decide; [done|]. simpl.
        eapply rtc_r; [exact Hd1|]. by apply write_addContact.
  - unfold status_POST.
    destruct (nonempty session) as [me|]; [|done].
    destruct (updateUser e me _ d) as [d1 u] eqn:Hu. simpl.
    store_of_write. apply rtc_once, write_updateUser.
  - unfold status_GET. by destruct (nonempty session).
  - unfold users_id_GET. destruct (nonempty session); [|done].
    by destruct (getUserById id d).
  - unfold profile_GET. destruct (nonempty session) as [me|]; [|done].
    by destruct (getUserById me d).
  - destruct (nonempty session) as [me|] eqn:Hs.
    + rewrite (profile_PUT_fst _ _ _ _ _ Hs). apply rtc_once, write_updateUser.
    + unfold profile_PUT. by rewrite Hs.
Qed.

Lemma reaches_writes hash d d' : reaches hash d d' → rtc store_write d d'.
Proof.
  induction 1 as [|d d' e r _ IH]; [done|].
  etrans; [exact IH|]. apply handle_writes.
Qed.

Lemma reachable_writes hash d : reachable hash d → rtc store_write empty_disk d.
Proof.
  induction 1 as [|d e r _ IH]; [done|].
  etrans; [exact IH|]. apply handle_writes.
Qed.

Lemma kept_refl {A} (R : A → A → Prop) (l : list A) : (∀ x, R x x) → kept R l l.
Proof. intros HR j x Hj. eauto. Qed.

Lemma kept_trans {A} (R : A → A → Prop) (l1 l2 l3 : list A) :
  (∀ x y z, R x y → R y z → R x z) → kept R l1 l2 → kept R l2 l3 → kept R l1 l3.
Proof.
  intros HR H12 H23 j x Hj.
  destruct (H12 j x Hj) as (y & Hy & Hxy). destruct (H23 j y Hy) as (z & Hz & Hyz).
  eauto.
Qed.

Lemma kept_app {A} (R : A → A → Prop) (l k : list A) : (∀ x, R x x) → kept R l (l ++ k).
Proof.
  intros HR j x Hj. exists x. split; [|done].
  rewrite lookup_app_l; [done|]. by eapply lookup_lt_Some.
Qed.

Lemma kept_insert {A} (R : A → A → Prop) (l : list A) (i : nat) (x x' : A) :
  (∀ y, R y y) → l !! i = Some x → R x x' → kept R l (<[i := x']> l).
Proof.
  intros HR Hi Hx j y Hj. destruct (decide (i = j)) as [->|Hne].
  - rewrite Hi in Hj. injection Hj as <-. exists x'.
    split; [|done]. apply list_lookup_insert_eq. by eapply lookup_lt_Some.
  - exists y. by rewrite list_lookup_insert_ne.
Qed.

Lemma same_identity_refl u : same_identity u u.
Proof. by repeat split. Qed.

Lemma same_identity_trans u1 u2 u3 :
  same_identity u1 u2 → same_identity u2 u3 → same_identity u1 u3.
Proof. unfold same_identity. intros (?&?&?&?) (?&?&?&?). split_and!; congruence. Qed.

Lemma same_message_refl m : same_message m m.
Proof. by repeat split. Qed.

Lemma same_message_trans m1 m2 m3 :
  same_message m1 m2 → same_message m2 m3 → same_message m1 m3.
Proof.
  unfold same_message. intros (?&?&?&?&?&?) (?&?&?&?&?&?).
  split_and!; try congruence. auto.
Qed.

Lemma createMessage_frame e nm d :
  users (createMessage e nm d).1 = users d ∧ contacts (createMessage e nm d).1 = contacts d.
Proof. unfold createMessage. simpl. apply write_frame_messages. Qed.

Lemma markMessagesAsRead_frame e a b d :
  users (markMessagesAsRead e a b d) = users d
  ∧ contacts (markMessagesAsRead e a b d) = contacts d.
Proof. unfold markMessagesAsRead. apply write_frame_messages. Qed.

Lemma write_users_kept d d' :
  store_write d d' → kept same_identity (users d) (users d').
Proof.
  destruct 1 as [e nu d _ _|e uid up d|e u c d _ _|e nm d _ _ _|e a b d].
  - unfold createUser, writeUsers, getUsers. simpl.
    destruct (fs_writable e); simpl.
    + apply kept_app, same_identity_refl.
    + apply kept_refl, same_identity_refl.
  - unfold updateUser, writeUsers, getUsers.
    destruct (list_find _ (users d)) as [[i u]|] eqn:Hf; simpl;
      [|apply kept_refl, same_identity_refl].
    destruct (fs_writable e); simpl; [|apply kept_refl, same_identity_refl].
    apply list_find_Some in Hf as (Hi & _ & _).
    eapply kept_insert; [apply same_identity_refl|exact Hi|by repeat split].
  - rewrite (proj1 (addContact_frame _ _ _ _)). apply kept_refl, same_identity_refl.
  - rewrite (proj1 (createMessage_frame _ _ _)). apply kept_refl, same_identity_refl.
  - rewrite (proj1 (markMessagesAsRead_frame _ _ _ _)). apply kept_refl, same_identity_refl.
Qed.

Lemma write_messages_kept d d' :
  store_write d d' → kept same_message (messages d) (messages d').
Proof.
  destruct 1 as [e nu d _ _|e uid up d|e u c d _ _|e nm d _ _ _|e a b d].
  - rewrite (proj2 (createUser_frame _ _ _)). apply kept_refl, same_message_refl.
  - rewrite (proj2 (updateUser_frame _ _ _ _)). apply kept_refl, same_message_refl.
  - rewrite (proj2 (addContact_frame _ _ _ _)). apply kept_refl, same_message_refl.
  - unfold createMessage, writeMessages, getMessages. simpl.
    destruct (fs_writable e); simpl.
    + apply kept_app, same_message_refl.
    + apply kept_refl, same_message_refl.
  - unfold markMessagesAsRead, writeMessages, getMessages.
    destruct (fs_writable e); simpl; [|apply kept_refl, same_message_refl].
    intros j m Hj. rewrite list_lookup_fmap, Hj. simpl. eexists; split; [done|].
    case_decide; by repeat split.
Qed.

Lemma writes_users_kept d d' :
  rtc store_write d d' → kept same_identity (users d) (users d').
Proof.
  induction 1 as [d|d1 d2 d3 H12 _ IH]; [apply kept_refl, same_identity_refl|].
  eapply kept_trans; [apply same_identity_trans|by apply write_users_kept|exact IH].
Qed.

Lemma writes_messages_kept d d' :
  rtc store_write d d' → kept same_message (messages d) (messages d').
Proof.
  induction 1 as [d|d1 d2 d3 H12 _ IH]; [apply kept_refl, same_message_refl|].
  eapply kept_trans; [apply same_message_trans|by apply write_messages_kept|exact IH].
Qed.

Lemma getUserByPhone_None_notin p d :
  getUserByPhone p d = None → p ∉ User.phone <$> users d.
Proof.
  unfold getUserByPhone, getUsers. destruct (list_find _ _) as [[i u]|] eqn:Hf; [done|].
  intros _. apply list_find_None in Hf. rewrite Forall_forall in Hf.
  intros (u & -> & Hu)%list_elem_of_fmap. by apply (Hf u Hu).
Qed.

Lemma write_phones_wf d d' :
  store_write d d' → phones_wf (users d) → phones_wf (users d').
Proof.
  destruct 1 as [e nu d Hnone Hre|e uid up d|e u c d _ _|e nm d _ _ _|e a b d];
    intros [Hnd Hval].
  - unfold createUser, writeUsers, getUsers. simpl.
    destruct (fs_writable e); simpl; [|done]. split.
    + rewrite fmap_app. simpl. apply NoDup_app. split_and!; [done| |apply NoDup_singleton].
      intros p Hp ->%list_elem_of_singleton.
      by apply (getUserByPhone_None_notin _ _ Hnone).
    + apply Forall_app. split; [done|]. by repeat constructor.
  - unfold updateUser, writeUsers, getUsers.
    destruct (list_find _ (users d)) as [[i u]|] eqn:Hf; simpl; [|done].
    destruct (fs_writable e); simpl; [|done].
    apply list_find_Some in Hf as (Hi & _ & _). split.
    + rewrite list_fmap_insert. simpl. rewrite list_insert_id; [done|].
      by rewrite list_lookup_fmap, Hi.
    + apply Forall_insert; [done|]. simpl. rewrite Forall_forall in Hval.
      apply Hval. by eapply list_elem_of_lookup_2.
  - by rewrite (proj1 (addContact_frame _ _ _ _)).
  - by rewrite (proj1 (createMessage_frame _ _ _)).
  - by rewrite (proj1 (markMessagesAsRead_frame _ _ _ _)).
Qed.

Lemma write_owners_wf d d' :
  store_write d d' → owners_wf (contacts d) → owners_wf (contacts d').
Proof.
  destruct 1 as [e nu d _ _|e uid up d|e u c d Hu Hc|e nm d _ _ _|e a b d]; intros Hinv.
  - by rewrite (proj1 (createUser_frame _ _ _)).
  - by rewrite (proj1 (updateUser_frame _ _ _ _)).
  - unfold addContact, writeContacts, getContacts.
    case_decide; [done|]. destruct (fs_writable e); [|done]. simpl.
    intros owner mine. destruct (decide (u = owner)) as [->|Hne].
    + rewrite lookup_insert_eq. intros [= <-]. split; [done|].
      apply Forall_app. split; [|by repeat constructor].
      destruct (contacts d !! owner) as [cs|] eqn:Hcs; simpl; [|constructor].
      by apply (Hinv owner cs).
    + rewrite lookup_insert_ne by done. apply Hinv.
  - by rewrite (proj2 (createMessage_frame _ _ _)).
  - by rewrite (proj2 (markMessagesAsRead_frame _ _ _ _)).
Qed.

Lemma write_messages_wf d d' :
  store_write d d' → Forall message_wf (messages d) → Forall message_wf (messages d').
Proof.
  destruct 1 as [e nu d _ _|e uid up d|e u c d _ _|e nm d Hs Hr Ht|e a b d]; intros Hinv.
  - by rewrite (proj2 (createUser_frame _ _ _)).
  - by rewrite (proj2 (updateUser_frame _ _ _ _)).
  - by rewrite (proj2 (addContact_frame _ _ _ _)).
  - unfold createMessage, writeMessages, getMessages. simpl.
    destruct (fs_writable e); simpl; [|done].
    apply Forall_app. split; [done|]. by repeat constructor.
  - unfold markMessagesAsRead, writeMessages, getMessages.
    destruct (fs_writable e); simpl; [|done].
    apply Forall_fmap. eapply Forall_impl; [exact Hinv|].
    intros m Hm. simpl. by case_decide.
Qed.

Lemma writes_preserve (P : Disk → Prop) :
  (∀ d d', store_write d d' → P d → P d') →
  ∀ d d', rtc store_write d d' → P d → P d'.
Proof.
  intros Hstep d d'. induction 1 as [|d1 d2 d3 H12 _ IH]; [done|].
  intros H1. apply IH. by eapply Hstep.
Qed.

(** ** Histories of requests *)

(** Whatever requests are served, a user record stays at its place in the
    user file and keeps its id, phone, password and createdAt: users are
    never removed and no request changes a stored password or phone. *)
Theorem users_identity_kept (hash : string → string) (d d' : Disk) :
  reaches hash d d' → kept same_identity (users d) (users d').
Proof. intros H. by apply writes_users_kept, (reaches_writes hash). Qed.

Lemma users_identity_kept_witness :
  ∃ u', users (handle toy_hash env0
                 (PutProfile (Some (User.id alice))
                    {[ "name" := "Al"; "password" := "stolen"; "phone" := "1" ]})
                 disk_ab).1 !! 0%nat = Some u'
        ∧ same_identity alice u'.
Proof.
  apply (users_identity_kept toy_hash disk_ab _
           (reaches_step toy_hash disk_ab disk_ab env0 _ (reaches_refl toy_hash disk_ab))
           0%nat alice).
  reflexivity.
Defined.

(** Whatever requests are served, a stored message stays at its place and
    keeps its id, sender, receiver, content and timestamp; its read flag,
    once true, stays true. *)
Theorem messages_kept (hash : string → string) (d d' : Disk) :
  reaches hash d d' → kept same_message (messages d) (messages d').
Proof. intros H. by apply writes_messages_kept, (reaches_writes hash). Qed.

Lemma messages_kept_witness :
  ∃ m', messages (handle toy_hash env3
                    (GetMessages (Some "alice") (Some "bob")) inbox0).1 !! 0%nat = Some m'
        ∧ same_message (Message.mk "m1" "bob" "alice" "hi" 10 false) m'.
Proof.
  apply (messages_kept toy_hash inbox0 _
           (reaches_step toy_hash inbox0 inbox0 env3 _ (reaches_refl toy_hash inbox0))
           0%nat (Message.mk "m1" "bob" "alice" "hi" 10 false)).
  reflexivity.
Defined.

(** In every store the server can reach, no two users share a phone and
    every stored phone is 10 to 15 digits. *)
Theorem reachable_phones_wf (hash : string → string) (d : Disk) :
  reachable hash d → phones_wf (users d).
Proof.
  intros H%reachable_writes.
  apply (writes_preserve (λ d, phones_wf (users d)) write_phones_wf _ _ H).
  split; [apply NoDup_nil_2|constructor].
Qed.

Lemma reachable_phones_wf_witness : phones_wf (users disk_ab).
Proof. exact (reachable_phones_wf toy_hash disk_ab disk_ab_reachable). Defined.

(** In every store the server can reach, no contact list is filed under
    the empty id and nobody is in their own contact list. *)
Theorem reachable_owners_wf (hash : string → string) (d : Disk) :
  reachable hash d → owners_wf (contacts d).
Proof.
  intros H%reachable_writes.
  apply (writes_preserve (λ d, owners_wf (contacts d)) write_owners_wf _ _ H).
  intros owner mine. simpl. by rewrite lookup_empty.
Qed.

Lemma reachable_owners_wf_witness : owners_wf (contacts disk_ab).
Proof. exact (reachable_owners_wf toy_hash disk_ab disk_ab_reachable). Defined.

(** In every store the server can reach, every message has a non-empty
    sender and receiver and a content without leading or trailing blanks. *)
Theorem reachable_messages_wf (hash : string → string) (d : Disk) :
  reachable hash d → Forall message_wf (messages d).
Proof.
  intros H%reachable_writes.
  apply (writes_preserve (λ d, Forall message_wf (messages d)) write_messages_wf _ _ H).
  constructor.
Qed.

Lemma disk_hi_reachable : reachable toy_hash disk_hi.
Proof.
  change disk_hi with (handle toy_hash env0 alice_says_hi disk_ab).1.
  apply reachable_step, disk_ab_reachable.
Qed.

Lemma reachable_messages_wf_witness : Forall message_wf (messages disk_hi).
Proof. exact (reachable_messages_wf toy_hash disk_hi disk_hi_reachable). Defined.

(** ** Registration and login *)

Lemma register_POST_new hash e body phone password name d :
  fs_writable e = true →
  body !! "phone" = Some phone → body !! "password" = Some password →
  body !! "name" = Some name → password ≠ EmptyString → name ≠ EmptyString →
  phoneRegex_test (strip_spaces phone) = true →
  getUserByPhone (strip_spaces phone) d = None →
  register_POST hash e body d
  = (mkDisk (users d ++ [registered_user hash e phone password name])
       (contacts d) (messages d),
     json_status (userWithoutPassword (registered_user hash e phone password name)) 201).
Proof.
  intros Hw Hp Hpw Hn Hpwne Hnne Hre Hnone. unfold register_POST.
  rewrite Hp, Hpw, Hn, (nonempty_Some _ (phoneRegex_nonempty _ Hre)),
    (nonempty_Some _ Hpwne), (nonempty_Some _ Hnne), Hre, Hnone.
  cbn [negb]. unfold createUser, writeUsers, getUsers. by rewrite Hw.
Qed.

Lemma register_POST_taken hash e body phone password name d u :
  body !! "phone" = Some phone → body !! "password" = Some password →
  body !! "name" = Some name → password ≠ EmptyString → name ≠ EmptyString →
  phoneRegex_test (strip_spaces phone) = true →
  getUserByPhone (strip_spaces phone) d = Some u →
  register_POST hash e body d
  = (d, json_status (error_body "User with this phone number already exists") 400).
Proof.
  intros Hp Hpw Hn Hpwne Hnne Hre Hsome. unfold register_POST.
  by rewrite Hp, Hpw, Hn, (nonempty_Some _ (phoneRegex_nonempty _ Hre)),
    (nonempty_Some _ Hpwne), (nonempty_Some _ Hnne), Hre, Hsome.
Qed.

Lemma authorize_found compare (credentials : gmap string string) phone password d u :
  credentials !! "phone" = Some phone → credentials !! "password" = Some password →
  phone ≠ EmptyString → password ≠ EmptyString →
  getUserByPhone (strip_spaces phone) d = Some u →
  authorize compare (Some credentials) d
  = if compare password (User.password u)
    then Some (Identity.mk (User.id u) (User.phone u) (User.name u))
    else None.
Proof.
  intros Hp Hpw Hpne Hpwne Hu. unfold authorize.
  by rewrite Hp, Hpw, (nonempty_Some _ Hpne), (nonempty_Some _ Hpwne), Hu.
Qed.

Lemma register_POST_taken_any hash e (body : gmap string string) phone d u :
  body !! "phone" = Some phone →
  phoneRegex_test (strip_spaces phone) = true →
  getUserByPhone (strip_spaces phone) d = Some u →
  (register_POST hash e body d).1 = d
  ∧ resp_status (register_POST hash e body d).2 = 400%nat
  ∧ (nonempty (body !! "password") = None ∨ nonempty (body !! "name") = None →
     register_POST hash e body d
     = (d, json_status (error_body "Phone number, password, and name are required") 400)).
Proof.
  intros Hp Hre Hu. unfold register_POST.
  rewrite Hp, (nonempty_Some _ (phoneRegex_nonempty _ Hre)).
  destruct (nonempty (body !! "password")) as [password|];
    destruct (nonempty (body !! "name")) as [name|]; rewrite ?Hre, ?Hu; cbn [negb];
    split_and!; try done; by intros [?|?].
Qed.

(** A phone can be registered once: after a successful registration, every
    further registration whose phone is the same once blanks are removed is
    answered 400 and files nothing. The answer is that the phone already
    exists when the request carries a non-empty password and name, and that
    phone, password and name are required when one of these is missing or
    empty. *)
Theorem register_twice_rejected (hash : string → string) (e e2 : Env)
    (body body2 : gmap string string) (phone password name phone2 : string) (d : Disk) :
  fs_writable e = true →
  body !! "phone" = Some phone → body !! "password" = Some password →
  body !! "name" = Some name → password ≠ EmptyString → name ≠ EmptyString →
  phoneRegex_test (strip_spaces phone) = true →
  getUserByPhone (strip_spaces phone) d = None →
  body2 !! "phone" = Some phone2 →
  strip_spaces phone2 = strip_spaces phone →
  let d1 := (register_POST hash e body d).1 in
  resp_status (register_POST hash e body d).2 = 201%nat
  ∧ length (users d1) = S (length (users d))
  ∧ (register_POST hash e2 body2 d1).1 = d1
  ∧ resp_status (register_POST hash e2 body2 d1).2 = 400%nat
  ∧ (∀ password2 name2,
       body2 !! "password" = Some password2 → body2 !! "name" = Some name2 →
       password2 ≠ EmptyString → name2 ≠ EmptyString →
       register_POST hash e2 body2 d1
       = (d1, json_status (error_body "User with this phone number already exists") 400))
  ∧ (nonempty (body2 !! "password") = None ∨ nonempty (body2 !! "name") = None →
     register_POST hash e2 body2 d1
     = (d1, json_status (error_body "Phone number, password, and name are required") 400)).
Proof.
  intros Hw Hp Hpw Hn Hpwne Hnne Hre Hnone Hp2 Hsame d1.
  subst d1. rewrite (register_POST_new hash e body phone password name d) by done.
  cbn [fst snd resp_status json_status].
  assert (Hre2 : phoneRegex_test (strip_spaces phone2) = true) by (by rewrite Hsame).
  assert (Hfound : getUserByPhone (strip_spaces phone2)
                     (mkDisk (users d ++ [registered_user hash e phone password name])
                        (contacts d) (messages d))
                   = Some (registered_user hash e phone password name)).
  { rewrite Hsame. by apply getUserByPhone_created. }
  destruct (register_POST_taken_any hash e2 body2 phone2 _ _ Hp2 Hre2 Hfound)
    as (Hsame_store & Hstatus & Hrequired).
  split_and!; try done.
  - simpl. rewrite length_app. simpl. lia.
  - intros password2 name2 Hpw2 Hn2 Hpwne2 Hnne2.
    by apply (register_POST_taken hash e2 body2 phone2 password2 name2 _
                (registered_user hash e phone password name)).
Qed.

Lemma register_twice_rejected_witness :
  register_POST toy_hash env3
    {[ "phone" := "5551 234 567"; "password" := "other"; "name" := "Mallory" ]}
    (register_POST toy_hash env1
       {[ "phone" := "555 123 4567"; "password" := "secret1"; "name" := "Alice" ]}
       empty_disk).1
  = ((register_POST toy_hash env1
        {[ "phone" := "555 123 4567"; "password" := "secret1"; "name" := "Alice" ]}
        empty_disk).1,
     json_status (error_body "User with this phone number already exists") 400)
  ∧ register_POST toy_hash env3 {[ "phone" := "5551 234 567"; "name" := "Mallory" ]}
      (register_POST toy_hash env1
         {[ "phone" := "555 123 4567"; "password" := "secret1"; "name" := "Alice" ]}
         empty_disk).1
    = ((register_POST toy_hash env1
          {[ "phone" := "555 123 4567"; "password" := "secret1"; "name" := "Alice" ]}
          empty_disk).1,
       json_status (error_body "Phone number, password, and name are required") 400).
Proof.
  split.
  - refine (proj1 (proj2 (proj2 (proj2 (proj2 (register_twice_rejected toy_hash env1 env3
              {[ "phone" := "555 123 4567"; "password" := "secret1"; "name" := "Alice" ]}
              {[ "phone" := "5551 234 567"; "password" := "other"; "name" := "Mallory" ]}
              "555 123 4567" "secret1" "Alice" "5551 234 567"
              empty_disk _ _ _ _ _ _ _ _ _ _))))) "other" "Mallory" _ _ _ _);
      first [ discriminate | reflexivity ].
  - refine (proj2 (proj2 (proj2 (proj2 (proj2 (register_twice_rejected toy_hash env1 env3
              {[ "phone" := "555 123 4567"; "password" := "secret1"; "name" := "Alice" ]}
              {[ "phone" := "5551 234 567"; "name" := "Mallory" ]}
              "555 123 4567" "secret1" "Alice" "5551 234 567"
              empty_disk _ _ _ _ _ _ _ _ _ _))))) _);
      first [ discriminate | reflexivity | (left; reflexivity) ].
Defined.

(** Registration followed by login: once a phone is registered, the
    credentials callback accepts that phone, however it is spaced, with a
    password the hash comparison accepts, and returns the id, normalised
    phone and name that were filed. *)
Theorem register_then_authorize (hash : string → string) (compare : string → string → bool)
    (e : Env) (body credentials : gmap string string)
    (phone password name phone2 password2 : string) (d : Disk) :
  fs_writable e = true →
  body !! "phone" = Some phone → body !! "password" = Some password →
  body !! "name" = Some name → password ≠ EmptyString → name ≠ EmptyString →
  phoneRegex_test (strip_spaces phone) = true →
  getUserByPhone (strip_spaces phone) d = None →
  credentials !! "phone" = Some phone2 → credentials !! "password" = Some password2 →
  password2 ≠ EmptyString →
  strip_spaces phone2 = strip_spaces phone →
  compare password2 (hash password) = true →
  authorize compare (Some credentials) (register_POST hash e body d).1
  = Some (Identity.mk (gen_id e) (strip_spaces phone) name).
Proof.
  intros Hw Hp Hpw Hn Hpwne Hnne Hre Hnone Hp2 Hpw2 Hpwne2 Hsame Hcmp.
  rewrite (register_POST_new hash e body phone password name d) by done.
  cbn [fst].
  assert (Hne2 : phone2 ≠ EmptyString).
  { apply phoneRegex_nonempty. by rewrite Hsame. }
  rewrite (authorize_found compare credentials phone2 password2 _
             (registered_user hash e phone password name)); try done.
  - simpl. by rewrite Hcmp.
  - rewrite Hsame. by apply getUserByPhone_created.
Qed.

Lemma register_then_authorize_witness :
  authorize toy_compare
    (Some {[ "phone" := "5551234567"; "password" := "secret1" ]})
    (register_POST toy_hash env1
       {[ "phone" := "555 123 4567"; "password" := "secret1"; "name" := "Alice" ]}
       empty_disk).1
  = Some (Identity.mk (User.id alice) "5551234567" "Alice").
Proof.
  refine (register_then_authorize toy_hash toy_compare env1
            {[ "phone" := "555 123 4567"; "password" := "secret1"; "name" := "Alice" ]}
            {[ "phone" := "5551234567"; "password" := "secret1" ]}
            "555 123 4567" "secret1" "Alice" "5551234567" "secret1"
            empty_disk _ _ _ _ _ _ _ _ _ _ _ _ _);
    first [ discriminate | reflexivity ].
Defined.




(** ** Sending, fetching and unread counts *)

Lemma filter_none {A} (P : A → Prop) `{∀ x, Decision (P x)} (l : list A) :
  Forall (λ x, ¬ P x) l → filter P l = [].
Proof.
  induction 1 as [|x l Hx _ IH]; [done|]. by rewrite filter_cons_False.
Qed.

Lemma messages_POST_sent e me receiverId content (body : gmap string string) d :
  me ≠ EmptyString → fs_writable e = true →
  body !! "receiverId" = Some receiverId → receiverId ≠ EmptyString →
  body !! "content" = Some content → content ≠ EmptyString →
  messages_POST e (Some me) body d
  = (mkDisk (users d) (contacts d)
       (messages d ++ [Message.mk (gen_id e) me receiverId (trim content) (now e) false]),
     json_status
       (message_json (Message.mk (gen_id e) me receiverId (trim content) (now e) false))
       201).
Proof.
  intros Hme Hw Hr Hrne Hc Hcne. unfold messages_POST.
  rewrite (nonempty_Some _ Hme), Hr, Hc, (nonempty_Some _ Hrne), (nonempty_Some _ Hcne).
  unfold createMessage, writeMessages, getMessages. simpl. by rewrite Hw.
Qed.

Lemma markMessagesAsRead_written e reader other d :
  fs_writable e = true →
  markMessagesAsRead e reader other d
  = mkDisk (users d) (contacts d)
      ((λ m, if decide (unread_from reader other m) then set_read m else m)
         <$> messages d).
Proof. intros Hw. unfold markMessagesAsRead, writeMessages, getMessages. by rewrite Hw. Qed.

Lemma marked_not_unread reader other (l : list Message.t) :
  Forall (λ m, ¬ unread_from reader other m)
    ((λ m, if decide (unread_from reader other m) then set_read m else m) <$> l).
Proof.
  apply Forall_fmap, Forall_forall. intros m _. simpl.
  case_decide as Hu; [|done]. unfold unread_from. simpl. by intros (_ & _ & ?).
Qed.

Lemma messages_GET_store e me other d :
  me ≠ EmptyString → other ≠ EmptyString →
  messages_GET e (Some me) (Some other) d
  = (markMessagesAsRead e me other d,
     json (JArr (message_json <$> getConversationMessages me other d))).
Proof.
  intros Hme Ho. unfold messages_GET.
  by rewrite (nonempty_Some _ Hme), (nonempty_Some _ Ho).
Qed.

Lemma getConversationMessages_elem a b d m :
  m ∈ getConversationMessages a b d ↔ m ∈ messages d ∧ between a b m.
Proof.
  unfold getConversationMessages, getMessages.
  rewrite sort_by_time_perm, list_elem_of_filter. tauto.
Qed.

(** A message sent by A to B shows up unread in B's next fetch of the
    conversation; that fetch files it as read, so that the conversation B
    fetches afterwards counts no unread message from A; a fetch by the
    sender A leaves it unread. *)
Theorem send_then_fetch (e1 e2 : Env) (A B content : string) (body : gmap string string)
    (d : Disk) :
  A ≠ EmptyString → B ≠ EmptyString →
  fs_writable e1 = true → fs_writable e2 = true →
  body !! "receiverId" = Some B → body !! "content" = Some content →
  content ≠ EmptyString →
  let m := Message.mk (gen_id e1) A B (trim content) (now e1) false in
  let d1 := (messages_POST e1 (Some A) body d).1 in
  let d2 := (messages_GET e2 (Some B) (Some A) d1).1 in
  (messages_GET e2 (Some B) (Some A) d1).2
  = json (JArr (message_json <$> getConversationMessages B A d1))
  ∧ m ∈ getConversationMessages B A d1
  ∧ messages d2 !! length (messages d) = Some (set_read m)
  ∧ set_read m ∈ getConversationMessages B A d2
  ∧ getUnreadCount (Some B) A (getConversationMessages B A d2) = 0%nat
  ∧ (A ≠ B →
     messages (messages_GET e2 (Some A) (Some B) d1).1 !! length (messages d) = Some m).
Proof.
  intros HA HB Hw1 Hw2 Hr Hc Hcne m d1 d2.
  assert (Hd1 : d1 = mkDisk (users d) (contacts d) (messages d ++ [m])).
  { unfold d1. by rewrite (messages_POST_sent e1 A B content body d). }
  assert (Hlast : (messages d ++ [m]) !! length (messages d) = Some m).
  { rewrite lookup_app_r by lia. by rewrite Nat.sub_diag. }
  assert (Hm : unread_from B A m) by done.
  assert (Hd2 : messages d2
                = (λ x, if decide (unread_from B A x) then set_read x else x)
                    <$> (messages d ++ [m])).
  { unfold d2. rewrite (messages_GET_store e2 B A d1) by done. cbn [fst].
    rewrite (markMessagesAsRead_written e2 B A d1 Hw2). by rewrite Hd1. }
  assert (H2 : messages d2 !! length (messages d) = Some (set_read m)).
  { rewrite Hd2, list_lookup_fmap, Hlast. simpl. by rewrite decide_True. }
  split_and!.
  - by rewrite (messages_GET_store e2 B A d1).
  - apply getConversationMessages_elem. rewrite Hd1. simpl. split.
    + apply elem_of_app. right. by apply list_elem_of_singleton.
    + by right.
  - done.
  - apply getConversationMessages_elem. split.
    + by eapply list_elem_of_lookup_2.
    + by right.
  - unfold getUnreadCount. rewrite filter_none; [done|].
    apply Forall_forall. intros x [Hx _]%getConversationMessages_elem.
    rewrite Hd2 in Hx. pose proof (marked_not_unread B A (messages d ++ [m])) as Hall.
    rewrite Forall_forall in Hall. specialize (Hall x Hx).
    intros (Hrcv & Hsnd & Hread). apply Hall. unfold unread_from.
    injection Hrcv as Hrcv. done.
  - intros HAB. rewrite (messages_GET_store e2 A B d1) by done. cbn [fst].
    rewrite (markMessagesAsRead_written e2 A B d1 Hw2), Hd1. simpl.
    rewrite list_lookup_fmap, Hlast. simpl. rewrite decide_False; [done|].
    intros (Hs & _). simpl in Hs. done.
Qed.

Lemma send_then_fetch_witness :
  messages (messages_GET env3 (Some (User.id bob)) (Some (User.id alice))
              (messages_POST env0 (Some (User.id alice))
                 {[ "receiverId" := User.id bob; "content" := " hi " ]} disk_ab).1).1
    !! 0%nat
  = Some (set_read hello).
Proof.
  refine (proj1 (proj2 (proj2 (send_then_fetch env0 env3 (User.id alice) (User.id bob)
            " hi " {[ "receiverId" := User.id bob; "content" := " hi " ]} disk_ab
            _ _ _ _ _ _ _))));
    first [ discriminate | reflexivity ].
Defined.

(** Marking a conversation read leaves no unread message from the other
    side to the reader, so the reader's unread count for it is zero, and
    marking it again changes nothing. *)
Theorem markMessagesAsRead_idempotent (e e' : Env) (reader other : string) (d : Disk) :
  fs_writable e = true →
  let d1 := markMessagesAsRead e reader other d in
  Forall (λ m, ¬ unread_from reader other m) (messages d1)
  ∧ getUnreadCount (Some reader) other (messages d1) = 0%nat
  ∧ markMessagesAsRead e' reader other d1 = d1.
Proof.
  intros Hw d1. subst d1. rewrite (markMessagesAsRead_written e reader other d Hw).
  pose proof (marked_not_unread reader other (messages d)) as Hall.
  split_and!.
  - done.
  - unfold getUnreadCount. simpl. rewrite filter_none; [done|].
    eapply Forall_impl; [exact Hall|]. intros m Hm (Hrcv & Hsnd & Hread).
    apply Hm. injection Hrcv as Hrcv. done.
  - unfold markMessagesAsRead, writeMessages, getMessages.
    destruct (fs_writable e'); [|done]. simpl. f_equal.
    rewrite <- list_fmap_compose. apply list_fmap_ext. intros i m _. unfold compose.
    destruct (decide (unread_from reader other m)) as [Hu|Hu].
    + rewrite decide_False; [done|]. unfold unread_from. simpl. by intros (_ & _ & ?).
    + by rewrite decide_False.
Qed.

Lemma markMessagesAsRead_idempotent_witness :
  getUnreadCount (Some "alice") "bob" (messages (markMessagesAsRead env0 "alice" "bob" inbox0))
  = 0%nat.
Proof.
  exact (proj1 (proj2 (markMessagesAsRead_idempotent env0 env0 "alice" "bob" inbox0 eq_refl))).
Defined.

Lemma insert_by_time_filter (t : Time) (m : Message.t) (l : list Message.t) :
  filter (λ x, Message.timestamp x = t) (insert_by_time m l)
  = filter (λ x, Message.timestamp x = t) (m :: l).
Proof.
  induction l as [|x r IH]; simpl; [done|].
  destruct (Z.leb_spec (Message.timestamp m) (Message.timestamp x)) as [Hle|Hlt]; [done|].
  rewrite (filter_cons _ x), IH, !(filter_cons _ m), (filter_cons _ x).
  repeat case_decide; try done. lia.
Qed.

(** Messages of a conversation that carry the same timestamp come back in
    the order in which they are stored. *)
Theorem getConversationMessages_stable (A B : string) (d : Disk) (t : Time) :
  filter (λ m, Message.timestamp m = t) (getConversationMessages A B d)
  = filter (λ m, Message.timestamp m = t) (filter (between A B) (messages d)).
Proof.
  unfold getConversationMessages, getMessages.
  induction (filter (between A B) (messages d)) as [|x l IH]; [done|].
  simpl. rewrite insert_by_time_filter, !(filter_cons _ x), IH. done.
Qed.

(** ** Sessions *)

(** Every request but registration that comes without a session, or with
    an empty user id in it, is answered 401 and leaves the store alone; so
    is a user search. *)
Theorem no_session_no_access (hash : string → string) (e : Env) (r : Request)
    (session q : option string) (d : Disk) :
  nonempty session = None →
  (request_session r = Some session → handle hash e r d = (d, unauthorized))
  ∧ users_search_GET session q d = (d, unauthorized).
Proof.
  intros Hs. split.
  - destruct r; simpl; intros [= ->]; try done.
    + unfold messages_GET. by rewrite Hs.
    + unfold messages_POST. by rewrite Hs.
    + unfold contacts_GET. by rewrite Hs.
    + unfold contacts_POST. by rewrite Hs.
    + unfold status_POST. by rewrite Hs.
    + unfold status_GET. by rewrite Hs.
    + unfold users_id_GET. by rewrite Hs.
    + unfold profile_GET. by rewrite Hs.
    + unfold profile_PUT. by rewrite Hs.
  - unfold users_search_GET. by rewrite Hs.
Qed.

Lemma no_session_no_access_witness :
  handle toy_hash env0 (PostContacts (Some EmptyString) {[ "contactId" := User.id bob ]})
    disk_registered
  = (disk_registered, unauthorized).
Proof.
  exact (proj1 (no_session_no_access toy_hash env0
                  (PostContacts (Some EmptyString) {[ "contactId" := User.id bob ]})
                  (Some EmptyString) None disk_registered eq_refl) eq_refl).
Defined.

(** ** Presence over time *)

Lemma updateUser_lookup e userId updates d u :
  fs_writable e = true →
  getUserById userId d = Some u →
  getUserById userId (updateUser e userId updates d).1 = Some (apply_updates e u updates)
  ∧ (updateUser e userId updates d).2 = Some (apply_updates e u updates)
  ∧ ∀ other, other ≠ userId →
      getUserById other (updateUser e userId updates d).1 = getUserById other d.
Proof.
  intros Hw Hu. unfold getUserById, getUsers in Hu.
  destruct (list_find _ (users d)) as [[i u0]|] eqn:Hf; [|done].
  injection Hu as ->. rewrite (updateUser_found _ _ _ _ _ _ Hw Hf). cbn [fst snd].
  pose proof Hf as (Hi & Hid & Hfirst)%list_find_Some.
  assert (Hlt : (i < length (users d))%nat) by (by eapply lookup_lt_Some).
  split_and!; [|done|].
  - unfold getUserById, getUsers. simpl.
    assert (Hf' : list_find (λ x, User.id x = userId)
                    (<[i := apply_updates e u updates]> (users d))
                  = Some (i, apply_updates e u updates)).
    { apply list_find_Some. split_and!.
      - by apply list_lookup_insert_eq.
      - done.
      - intros j y Hy Hji. rewrite list_lookup_insert_ne in Hy by lia. by eapply Hfirst. }
    by rewrite Hf'.
  - intros other Hne. unfold getUserById, getUsers. simpl.
    destruct (list_find (λ x, User.id x = other) (users d)) as [[j y]|] eqn:Hg.
    + apply list_find_Some in Hg as (Hj & Hjid & Hjfirst).
      assert (Hij : i ≠ j).
      { intros ->. rewrite Hi in Hj. injection Hj as ->. congruence. }
      assert (Hg' : list_find (λ x, User.id x = other)
                      (<[i := apply_updates e u updates]> (users d)) = Some (j, y)).
      { apply list_find_Some. split_and!.
        - by rewrite list_lookup_insert_ne.
        - done.
        - intros k z Hz Hkj. destruct (decide (i = k)) as [->|Hik].
          + rewrite list_lookup_insert_eq in Hz by done. injection Hz as <-.
            simpl. congruence.
          + rewrite list_lookup_insert_ne in Hz by done. by eapply Hjfirst. }
      by rewrite Hg'.
    + apply list_find_None in Hg.
      assert (Hg' : list_find (λ x, User.id x = other)
                      (<[i := apply_updates e u updates]> (users d)) = None).
      { apply list_find_None, Forall_insert; [done|]. simpl. congruence. }
      by rewrite Hg'.
Qed.

(** After a heartbeat of a caller with an account, the presence entry of
    that caller at any later request is: online exactly while less than
    five minutes have passed since the heartbeat, last seen at the time of
    the heartbeat; right at the heartbeat the caller is online. *)
Theorem heartbeat_then_status (e1 e2 : Env) (caller : string) (userIds : list string)
    (d : Disk) (u : User.t) :
  caller ≠ EmptyString →
  fs_writable e1 = true →
  getUserById caller d = Some u →
  caller ∈ userIds →
  let d1 := (status_POST e1 (Some caller) d).1 in
  statusMap e2 userIds d1 !! caller
  = Some (StatusEntry.mk (now e2 - now e1 <? 5 * 60 * 1000) (Some (now e1)))
  ∧ statusMap e1 userIds d1 !! caller = Some (StatusEntry.mk true (Some (now e1))).
Proof.
  intros Hc Hw Hu Hin d1.
  assert (Hd1 : getUserById caller d1 = Some (apply_updates e1 u (heartbeat_updates e1))).
  { unfold d1, status_POST. rewrite (nonempty_Some _ Hc).
    destruct (updateUser e1 caller (heartbeat_updates e1) d) as [d' r] eqn:Hup.
    cbn [fst]. replace d' with (updateUser e1 caller (heartbeat_updates e1) d).1
      by (by rewrite Hup).
    by apply updateUser_lookup. }
  assert (Hgen : ∀ e, statusMap e userIds d1 !! caller
                      = Some (StatusEntry.mk (now e - now e1 <? 5 * 60 * 1000)
                                (Some (now e1)))).
  { intros e. rewrite statusMap_lookup, decide_True by done. by rewrite Hd1. }
  split; [apply Hgen|]. rewrite Hgen. by rewrite Z.sub_diag.
Qed.

Lemma heartbeat_then_status_witness :
  statusMap env_4min [User.id alice; User.id bob]
    (status_POST (mkEnv 1700000000004 "x" true) (Some (User.id bob)) disk_ab).1
    !! User.id bob
  = Some (StatusEntry.mk true (Some 1700000000004)).
Proof.
  refine (proj1 (heartbeat_then_status (mkEnv 1700000000004 "x" true) env_4min
            (User.id bob) [User.id alice; User.id bob] disk_ab bob _ _ _ _));
    first [ discriminate | reflexivity | idtac ].
  apply list_elem_of_further, list_elem_of_here.
Defined.

(** GET /users/status answers nothing for an id that was not asked for or
    that no user has, and the empty object when the userIds parameter is
    missing. *)
Theorem status_GET_omits (e : Env) (session userIds : option string) (uid : string)
    (d : Disk) :
  is_Some (nonempty session) →
  (uid ∉ parse_userIds userIds ∨ getUserById uid d = None →
   jget uid (resp_body (status_GET e session userIds d).2) = None)
  ∧ (userIds = None → (status_GET e session userIds d).2 = json (JObj [])).
Proof.
  intros [me Hme]. unfold status_GET. rewrite Hme. cbn [snd resp_body json]. split.
  - intros Hcase. rewrite jget_map_to_list, statusMap_lookup.
    case_decide as Hin; [|done]. destruct Hcase as [Hn|Hn]; [done|]. by rewrite Hn.
  - intros ->. simpl. unfold statusMap. simpl. by rewrite map_to_list_empty.
Qed.

Lemma status_GET_omits_witness :
  jget "nobody"
    (resp_body (status_GET env0 (Some (User.id alice)) (Some "nobody,1700000000002bob")
                  disk_ab).2) = None.
Proof.
  apply (proj1 (status_GET_omits env0 (Some (User.id alice))
                  (Some "nobody,1700000000002bob") "nobody" disk_ab
                  (ex_intro _ (User.id alice) eq_refl))).
  right. reflexivity.
Defined.

(** ** Profile *)

(** PUT /profile by a caller with an account answers with the updated
    record, without its password; GET /profile and GET /users/:id read the
    same record back afterwards. A property that is present in the body
    replaces the stored one, also when it is the empty string; an absent one
    keeps the stored value. A caller without an account is answered 404. *)
Theorem profile_PUT_then_GET (e : Env) (caller : string) (session : option string)
    (body : gmap string string) (d : Disk) :
  caller ≠ EmptyString →
  fs_writable e = true →
  is_Some (nonempty session) →
  (∀ u, getUserById caller d = Some u →
     let u' := apply_updates e u (profile_updates body) in
     let d1 := (profile_PUT e (Some caller) body d).1 in
     (profile_PUT e (Some caller) body d).2 = json (userWithoutPassword u')
     ∧ profile_GET (Some caller) d1 = (d1, json (userWithoutPassword u'))
     ∧ users_id_GET session caller d1 = (d1, json (userWithoutPassword u'))
     ∧ User.name u' = default (User.name u) (body !! "name")
     ∧ User.status u' = from_option Some (User.status u) (body !! "status")
     ∧ User.profilePicture u'
       = from_option Some (User.profilePicture u) (body !! "profilePicture")
     ∧ User.updatedAt u' = Some (now e))
  ∧ (getUserById caller d = None →
     profile_PUT e (Some caller) body d
     = (d, json_status (error_body "User not found") 404)).
Proof.
  intros Hc Hw [me Hme]. split.
  - intros u Hu u' d1.
    destruct (updateUser_lookup e caller (profile_updates body) d u Hw Hu)
      as (Hget & Hres & _).
    assert (Hput : profile_PUT e (Some caller) body d = (d1, json (userWithoutPassword u'))).
    { unfold d1, profile_PUT. rewrite (nonempty_Some _ Hc).
      destruct (updateUser e caller (profile_updates body) d) as [d' r] eqn:Hup.
      simpl in Hres. subst r. done. }
    assert (Hd1 : getUserById caller d1 = Some u').
    { unfold d1. rewrite (profile_PUT_fst e (Some caller) caller body d); [done|].
      by apply nonempty_Some. }
    split_and!.
    + by rewrite Hput.
    + unfold profile_GET. by rewrite (nonempty_Some _ Hc), Hd1.
    + unfold users_id_GET. by rewrite Hme, Hd1.
    + done.
    + simpl. by destruct (body !! "status").
    + simpl. by destruct (body !! "profilePicture").
    + done.
  - intros Hnone. unfold profile_PUT, updateUser. rewrite (nonempty_Some _ Hc).
    unfold getUserById in Hnone.
    by destruct (list_find _ (getUsers d)) as [[i u]|].
Qed.

Lemma profile_PUT_then_GET_witness :
  profile_GET (Some (User.id bob))
    (profile_PUT env0 (Some (User.id bob))
       {[ "name" := "Robert"; "profilePicture" := "" ]} disk_ab).1
  = ((profile_PUT env0 (Some (User.id bob))
        {[ "name" := "Robert"; "profilePicture" := "" ]} disk_ab).1,
     json (userWithoutPassword
             (apply_updates env0 bob
                (profile_updates {[ "name" := "Robert"; "profilePicture" := "" ]})))).
Proof.
  refine (proj1 (proj2 (proj1 (profile_PUT_then_GET env0 (User.id bob)
            (Some (User.id alice)) {[ "name" := "Robert"; "profilePicture" := "" ]}
            disk_ab _ _ _) bob _)));
    first [ discriminate | reflexivity | by eexists ].
Defined.

(** ** Adding contacts *)

Lemma addContact_new e owner target d :
  fs_writable e = true →
  ¬ Exists (λ c, Contact.contactId c = target) (getUserContacts owner d) →
  addContact e owner target d
  = mkDisk (users d)
      (<[owner := getUserContacts owner d ++ [Contact.mk owner target (now e)]]>
         (contacts d))
      (messages d).
Proof.
  intros Hw Hnew. unfold addContact, writeContacts, getContacts.
  fold (getContacts d). fold (getUserContacts owner d).
  rewrite decide_False by done. by rewrite Hw.
Qed.

(** Adding an existing user by id for the first time files exactly one
    edge, from the caller to that user, at the end of the caller's list;
    users and messages are untouched and the edge is not reciprocal: the
    contact list of the added user is as before. From then on GET /contacts
    of the caller lists that user, with the time of the addition. *)
Theorem contacts_POST_byId_new (e e2 : Env) (owner target : string)
    (body : gmap string string) (d : Disk) (u : User.t) :
  owner ≠ EmptyString → target ≠ EmptyString →
  fs_writable e = true →
  body !! "contactId" = Some target →
  getUserById target d = Some u →
  target ≠ owner →
  ¬ Exists (λ c, Contact.contactId c = target) (getUserContacts owner d) →
  let edge := Contact.mk owner target (now e) in
  let d1 := (contacts_POST e (Some owner) body d).1 in
  d1 = mkDisk (users d) (<[owner := getUserContacts owner d ++ [edge]]> (contacts d))
         (messages d)
  ∧ resp_status (contacts_POST e (Some owner) body d).2 = 201%nat
  ∧ getUserContacts owner d1 = getUserContacts owner d ++ [edge]
  ∧ getUserContacts target d1 = getUserContacts target d
  ∧ contact_row e2 edge u ∈ contactsWithUserData e2 owner d1.
Proof.
  intros Ho Ht Hw Hb Hu Hne Hnew edge d1.
  assert (Hpost : contacts_POST e (Some owner) body d
                  = (addContact e owner target d,
                     json_status
                       (JObj [("success", JBool true); ("contact", user_json u)]) 201)).
  { unfold contacts_POST.
    rewrite (nonempty_Some _ Ho), Hb, (nonempty_Some _ Ht), Hu.
    by rewrite decide_False. }
  assert (Hd1 : d1 = mkDisk (users d)
                       (<[owner := getUserContacts owner d ++ [edge]]> (contacts d))
                       (messages d)).
  { unfold d1. rewrite Hpost. cbn [fst]. by apply addContact_new. }
  assert (Hmine : getUserContacts owner d1 = getUserContacts owner d ++ [edge]).
  { rewrite Hd1. unfold getUserContacts at 1, getContacts. simpl.
    by rewrite lookup_insert_eq. }
  split_and!.
  - done.
  - by rewrite Hpost.
  - done.
  - rewrite Hd1. unfold getUserContacts at 1, getContacts. simpl.
    by rewrite lookup_insert_ne.
  - unfold contactsWithUserData. apply list_elem_of_omap. exists edge. split.
    + rewrite Hmine. apply elem_of_app. right. by apply list_elem_of_singleton.
    + assert (Hu1 : getUserById target d1 = Some u) by (by rewrite Hd1).
      simpl. by rewrite Hu1.
Qed.

Lemma contacts_POST_byId_new_witness :
  contact_row env0 (Contact.mk (User.id alice) (User.id bob) (now env3)) bob
  ∈ contactsWithUserData env0 (User.id alice)
      (contacts_POST env3 (Some (User.id alice)) {[ "contactId" := User.id bob ]}
         disk_registered).1.
Proof.
  refine (proj2 (proj2 (proj2 (proj2
            (contacts_POST_byId_new env3 env0 (User.id alice) (User.id bob)
               {[ "contactId" := User.id bob ]} disk_registered bob _ _ _ _ _ _ _)))));
    first [ discriminate | reflexivity | idtac ].
  intros H. apply Exists_nil in H. exact H.
Defined.

(** Adding by phone a number that already has an account creates no user:
    the request is answered 400 when the account is the caller's own or is
    already a contact of the caller, and otherwise files one edge to that
    account and answers 201 with the account's record without its
    password. *)
Theorem contacts_POST_byPhone_existing (e : Env) (owner phone name : string)
    (body : gmap string string) (d : Disk) (u : User.t) :
  owner ≠ EmptyString →
  nonempty (body !! "contactId") = None →
  body !! "phone" = Some phone → body !! "name" = Some name → name ≠ EmptyString →
  phoneRegex_test (strip_spaces phone) = true →
  getUserByPhone (strip_spaces phone) d = Some u →
  users (contacts_POST e (Some owner) body d).1 = users d
  ∧ (User.id u = owner →
     contacts_POST e (Some owner) body d
     = (d, json_status (error_body "Cannot add yourself as a contact") 400))
  ∧ (User.id u ≠ owner →
     Exists (λ c, Contact.contactId c = User.id u) (getUserContacts owner d) →
     contacts_POST e (Some owner) body d
     = (d, json_status (error_body "This contact is already in your contact list") 400))
  ∧ (User.id u ≠ owner →
     ¬ Exists (λ c, Contact.contactId c = User.id u) (getUserContacts owner d) →
     fs_writable e = true →
     contacts_POST e (Some owner) body d
     = (mkDisk (users d)
          (<[owner := getUserContacts owner d
                      ++ [Contact.mk owner (User.id u) (now e)]]> (contacts d))
          (messages d),
        json_status
          (JObj [("success", JBool true); ("contact", userWithoutPassword u)]) 201)).
Proof.
  intros Ho Hcid Hp Hn Hnne Hre Hu.
  assert (Hpost : contacts_POST e (Some owner) body d
                  = if decide (User.id u = owner)
                    then (d, json_status (error_body "Cannot add yourself as a contact") 400)
                    else if decide (Exists (λ c, Contact.contactId c = User.id u)
                                      (getUserContacts owner d))
                    then (d, json_status
                               (error_body "This contact is already in your contact list")
                               400)
                    else (addContact e owner (User.id u) d,
                          json_status
                            (JObj [("success", JBool true);
                                   ("contact", userWithoutPassword u)]) 201)).
  { unfold contacts_POST.
    by rewrite (nonempty_Some _ Ho), Hcid, Hp, Hn, (nonempty_Some _ Hnne),
      (nonempty_Some _ (phoneRegex_nonempty _ Hre)), Hre, Hu. }
  rewrite Hpost. split_and!.
  - repeat case_decide; try done. apply addContact_frame.
  - intros Heq. by rewrite decide_True.
  - intros Hne Hex. rewrite decide_False by done. by rewrite decide_True.
  - intros Hne Hnew Hw. rewrite !decide_False by done. by rewrite addContact_new.
Qed.

Lemma contacts_POST_byPhone_existing_witness :
  contacts_POST env0 (Some (User.id alice)) {[ "phone" := "555 123 4567"; "name" := "Me" ]}
    disk_ab
  = (disk_ab, json_status (error_body "Cannot add yourself as a contact") 400).
Proof.
  refine (proj1 (proj2 (contacts_POST_byPhone_existing env0 (User.id alice)
            "555 123 4567" "Me" {[ "phone" := "555 123 4567"; "name" := "Me" ]}
            disk_ab alice _ _ _ _ _ _ _)) _);
    first [ discriminate | reflexivity ].
Defined.

(** ** User search *)

Lemma includes_empty (s : string) : includes s EmptyString = true.
Proof. by destruct s. Qed.

Lemma searchHit_hides (h : SearchHit.t) : has_key "password" (searchHit_json h) = false.
Proof. by destruct h. Qed.

(** GET /users/search returns, in the order of the user file, exactly the
    users other than the caller that are not in the caller's contact list
    and whose lower-cased name contains the lower-cased query or whose phone
    contains the query without its blanks; only id, name and phone of a hit
    are sent. With an empty or missing query every such user is a hit. *)
Theorem users_search_spec (me : string) (session q : option string) (d : Disk) :
  (∀ h, h ∈ filteredUsers me q d ↔
        ∃ u, u ∈ users d
             ∧ h = SearchHit.mk (User.id u) (User.name u) (User.phone u)
             ∧ User.id u ≠ me
             ∧ ¬ Exists (λ c, Contact.contactId c = User.id u) (getUserContacts me d)
             ∧ (includes (toLowerCase (User.name u)) (toLowerCase (or_empty q)) = true
                ∨ includes (User.phone u) (strip_spaces (or_empty q)) = true))
  ∧ SearchHit.id <$> filteredUsers me q d
    = User.id <$> filter (search_match me (or_empty q)
                            (list_to_set (Contact.contactId <$> getUserContacts me d)))
                    (users d)
  ∧ has_key "password" (resp_body (users_search_GET session q d).2) = false
  ∧ (nonempty q = None →
     ∀ u, u ∈ users d → User.id u ≠ me →
          ¬ Exists (λ c, Contact.contactId c = User.id u) (getUserContacts me d) →
          SearchHit.mk (User.id u) (User.name u) (User.phone u) ∈ filteredUsers me q d).
Proof.
  assert (Hset : ∀ u : User.t,
             User.id u ∉ (list_to_set (Contact.contactId <$> getUserContacts me d)
                          : gset string)
             ↔ ¬ Exists (λ c, Contact.contactId c = User.id u) (getUserContacts me d)).
  { intros u. rewrite elem_of_list_to_set, list_elem_of_fmap, Exists_exists.
    split; intros Hn (c & H1 & H2); apply Hn; exists c; done. }
  assert (Hmem : ∀ h, h ∈ filteredUsers me q d ↔
        ∃ u, u ∈ users d
             ∧ h = SearchHit.mk (User.id u) (User.name u) (User.phone u)
             ∧ User.id u ≠ me
             ∧ ¬ Exists (λ c, Contact.contactId c = User.id u) (getUserContacts me d)
             ∧ (includes (toLowerCase (User.name u)) (toLowerCase (or_empty q)) = true
                ∨ includes (User.phone u) (strip_spaces (or_empty q)) = true)).
  { intros h. unfold filteredUsers, getUsers. rewrite list_elem_of_fmap. split.
    - intros (u & -> & Hu). apply list_elem_of_filter in Hu as [(H1 & H2 & H3) Hin].
      exists u. split_and!; try done. by apply Hset.
    - intros (u & Hin & -> & H1 & H2 & H3). exists u. split; [done|].
      apply list_elem_of_filter. split; [|done]. split_and!; try done. by apply Hset. }
  split_and!.
  - exact Hmem.
  - unfold filteredUsers, getUsers. by rewrite <- list_fmap_compose.
  - unfold users_search_GET. destruct (nonempty session); [|done].
    apply has_key_JArr_fmap, searchHit_hides.
  - intros Hq u Hin Hne Hnc. apply Hmem. exists u. split_and!; try done.
    left. apply nonempty_None in Hq as [->| ->]; simpl; apply includes_empty.
Qed.

Example users_search_ex :
  filteredUsers (User.id alice) (Some "BO") disk_abc
  = [SearchHit.mk (User.id bob) "Bob" "5559876543"]
  ∧ filteredUsers (User.id alice) (Some "555 98") disk_abc
    = [SearchHit.mk (User.id bob) "Bob" "5559876543"]
  ∧ filteredUsers (User.id alice) (Some "carol") disk_abc = []
  ∧ filteredUsers (User.id bob) None disk_abc
    = [SearchHit.mk (User.id alice) "Alice" "5551234567";
       SearchHit.mk (gen_id env3) "Carol" "5550001111"].
Proof. repeat split; vm_compute; reflexivity. Qed.

Lemma users_search_spec_witness :
  SearchHit.mk (User.id bob) "Bob" "5559876543" ∈ filteredUsers (User.id alice) None disk_abc.
Proof.
  apply (proj2 (proj2 (proj2 (users_search_spec (User.id alice) (Some (User.id alice))
                                None disk_abc))) eq_refl bob).
  - apply list_elem_of_further, list_elem_of_here.
  - discriminate.
  - intros H. apply Exists_cons in H as [H|H]; [discriminate H|].
    apply Exists_nil in H. exact H.
Defined.

(** ** Session callbacks *)

(** Signing in puts the id, phone and name that authorize returned into
    the token, and the session callback copies them from the token into the
    session's user, so the id every handler reads from the session is that
    id, also when the token is refreshed later without a user; the other
    properties of the session's user are not touched. A token without an id
    leaves the session without one. *)
Theorem session_carries_identity (token user0 : gmap string string) (u : Identity.t)
    (expires : string) :
  let s := mkSession (Some user0) expires in
  let signed := jwt_callback token (Some u) in
  let s' := session_callback s (Some (jwt_callback signed None)) in
  session_user_id (Some s') = Some (Identity.id u)
  ∧ (∃ user', session_user s' = Some user'
       ∧ user' !! "phone" = Some (Identity.phone u)
       ∧ user' !! "name" = Some (Identity.name u)
       ∧ ∀ k, k ≠ "id" → k ≠ "phone" → k ≠ "name" → user' !! k = user0 !! k)
  ∧ session_expires s' = expires
  ∧ (token !! "id" = None → session_user_id (Some (session_callback s (Some token))) = None).
Proof.
  intros s signed s'. split_and!.
  - unfold s', session_user_id, session_callback, signed, jwt_callback. simpl.
    rewrite lookup_partial_alter_ne by done. rewrite lookup_partial_alter_ne by done.
    rewrite lookup_partial_alter_eq.
    rewrite lookup_insert_ne by done. rewrite lookup_insert_ne by done.
    by rewrite lookup_insert_eq.
  - eexists. split; [reflexivity|]. unfold signed, jwt_callback. split_and!.
    + rewrite lookup_partial_alter_ne by done. rewrite lookup_partial_alter_eq.
      rewrite lookup_insert_ne by done. by rewrite lookup_insert_eq.
    + rewrite lookup_partial_alter_eq. by rewrite lookup_insert_eq.
    + intros k H1 H2 H3. by rewrite !lookup_partial_alter_ne.
  - done.
  - intros Hid. unfold session_user_id, session_callback. simpl.
    rewrite lookup_partial_alter_ne by done. rewrite lookup_partial_alter_ne by done.
    by rewrite lookup_partial_alter_eq.
Qed.

Lemma session_carries_identity_witness :
  session_user_id
    (Some (session_callback (mkSession (Some {[ "email" := "a@b.c" ]}) "2026-12-01")
             (Some ∅)))
  = None.
Proof.
  exact (proj2 (proj2 (proj2
           (session_carries_identity ∅ {[ "email" := "a@b.c" ]}
              (Identity.mk "i" "p" "n") "2026-12-01"))) eq_refl).
Defined.

(** ** The last-seen label of the chat page *)

Lemma div_range (x q k : Z) : 0 < k → k * q ≤ x < k * (q + 1) → x / k = q.
Proof. intros Hk Hx. symmetry. apply Z.div_unique_pos with (r := x - k * q); lia. Qed.

(** formatLastSeen shows "just now" below one minute (also for a lastSeen
    in the future), whole minutes from 1 to 59 below one hour, whole hours
    from 1 to 23 below one day, whole days from 1 to 6 below one week and
    the locale date from one week on; the unit is in the singular exactly
    for a count of one. *)
Theorem formatLastSeen_ranges (toLocaleDateString : Time → string) (now lastSeen : Time) :
  let diff := now - lastSeen in
  let label := formatLastSeen toLocaleDateString now lastSeen in
  (diff < 60000 → label = "just now")
  ∧ (60000 ≤ diff < 120000 → label = "1 minute ago")
  ∧ (120000 ≤ diff < 3600000 →
     label = pretty (diff / 60000) +:+ " minutes ago" ∧ 2 ≤ diff / 60000 ≤ 59)
  ∧ (3600000 ≤ diff < 7200000 → label = "1 hour ago")
  ∧ (7200000 ≤ diff < 86400000 →
     label = pretty (diff / 3600000) +:+ " hours ago" ∧ 2 ≤ diff / 3600000 ≤ 23)
  ∧ (86400000 ≤ diff < 172800000 → label = "1 day ago")
  ∧ (172800000 ≤ diff < 604800000 →
     label = pretty (diff / 86400000) +:+ " days ago" ∧ 2 ≤ diff / 86400000 ≤ 6)
  ∧ (604800000 ≤ diff → label = toLocaleDateString lastSeen).
Proof.
  intros diff label. subst label. unfold formatLastSeen, plural. fold diff.
  assert (Hm : ∀ a b, a * 60000 ≤ diff < b * 60000 → a ≤ diff / 60000 < b).
  { intros a b [H1 H2]. split.
    - apply Z.div_le_lower_bound; lia.
    - apply Z.div_lt_upper_bound; lia. }
  assert (Hh : ∀ a b, a * 3600000 ≤ diff < b * 3600000 → a ≤ diff / 3600000 < b).
  { intros a b [H1 H2]. split.
    - apply Z.div_le_lower_bound; lia.
    - apply Z.div_lt_upper_bound; lia. }
  assert (Hd : ∀ a b, a * 86400000 ≤ diff < b * 86400000 → a ≤ diff / 86400000 < b).
  { intros a b [H1 H2]. split.
    - apply Z.div_le_lower_bound; lia.
    - apply Z.div_lt_upper_bound; lia. }
  split_and!.
  - intros H. assert (diff / 60000 < 1) by (apply Z.div_lt_upper_bound; lia).
    destruct (Z.ltb_spec (diff / 60000) 1); [done|lia].
  - intros H. rewrite (div_range diff 1 60000) by lia. reflexivity.
  - intros H. pose proof (Hm 2 60 ltac:(lia)) as Hq.
    destruct (Z.ltb_spec (diff / 60000) 1); [lia|].
    destruct (Z.ltb_spec (diff / 60000) 60); [|lia].
    destruct (Z.ltb_spec 1 (diff / 60000)); [|lia]. split; [done|lia].
  - intros H. pose proof (Hm 60 120 ltac:(lia)) as Hq.
    destruct (Z.ltb_spec (diff / 60000) 1); [lia|].
    destruct (Z.ltb_spec (diff / 60000) 60); [lia|].
    rewrite (div_range diff 1 3600000) by lia. reflexivity.
  - intros H. pose proof (Hm 120 1440 ltac:(lia)) as Hq.
    pose proof (Hh 2 24 ltac:(lia)) as Hq'.
    destruct (Z.ltb_spec (diff / 60000) 1); [lia|].
    destruct (Z.ltb_spec (diff / 60000) 60); [lia|].
    destruct (Z.ltb_spec (diff / 3600000) 24); [|lia].
    destruct (Z.ltb_spec 1 (diff / 3600000)); [|lia]. split; [done|lia].
  - intros H. pose proof (Hm 1440 2880 ltac:(lia)) as Hq.
    pose proof (Hh 24 48 ltac:(lia)) as Hq'.
    destruct (Z.ltb_spec (diff / 60000) 1); [lia|].
    destruct (Z.ltb_spec (diff / 60000) 60); [lia|].
    destruct (Z.ltb_spec (diff / 3600000) 24); [lia|].
    rewrite (div_range diff 1 86400000) by lia. reflexivity.
  - intros H. pose proof (Hm 2880 10080 ltac:(lia)) as Hq.
    pose proof (Hh 48 168 ltac:(lia)) as Hq'. pose proof (Hd 2 7 ltac:(lia)) as Hq''.
    destruct (Z.ltb_spec (diff / 60000) 1); [lia|].
    destruct (Z.ltb_spec (diff / 60000) 60); [lia|].
    destruct (Z.ltb_spec (diff / 3600000) 24); [lia|].
    destruct (Z.ltb_spec (diff / 86400000) 7); [|lia].
    destruct (Z.ltb_spec 1 (diff / 86400000)); [|lia]. split; [done|lia].
  - intros H.
    assert (1 ≤ diff / 60000 ∧ 60 ≤ diff / 60000).
    { split; apply Z.div_le_lower_bound; lia. }
    assert (24 ≤ diff / 3600000) by (apply Z.div_le_lower_bound; lia).
    assert (7 ≤ diff / 86400000) by (apply Z.div_le_lower_bound; lia).
    destruct (Z.ltb_spec (diff / 60000) 1); [lia|].
    destruct (Z.ltb_spec (diff / 60000) 60); [lia|].
    destruct (Z.ltb_spec (diff / 3600000) 24); [lia|].
    destruct (Z.ltb_spec (diff / 86400000) 7); [lia|]. done.
Qed.

Lemma formatLastSeen_ranges_witness :
  formatLastSeen (λ _, "11/2/2026") (now env_4min) 1700000000004
  = pretty (4 : Z) +:+ " minutes ago".
Proof.
  refine (proj1 (proj1 (proj2 (proj2
            (formatLastSeen_ranges (λ _, "11/2/2026") (now env_4min) 1700000000004))) _)).
  vm_compute. split; [discriminate|reflexivity].
Defined.

(** ** Normalisation and case *)

Lemma strip_spaces_idemp (s : string) : strip_spaces (strip_spaces s) = strip_spaces s.
Proof.
  induction s as [|a r IH]; simpl; [done|].
  destruct (js_space a) eqn:Ha; simpl; [done|]. by rewrite Ha, IH.
Qed.

Lemma js_digit_not_space (a : ascii) : js_digit a = true → js_space a = false.
Proof. destruct a as [[] [] [] [] [] [] [] []]; done. Qed.

Lemma all_digits_strip (s : string) : all_digits s = true → strip_spaces s = s.
Proof.
  induction s as [|a r IH]; simpl; [done|].
  intros [Ha Hr]%andb_true_iff. by rewrite (js_digit_not_space a Ha), IH.
Qed.

Lemma lower_ascii_idemp (a : ascii) : lower_ascii (lower_ascii a) = lower_ascii a.
Proof. destruct a as [[] [] [] [] [] [] [] []]; reflexivity. Qed.

Lemma lower_ascii_space (a : ascii) : js_space (lower_ascii a) = js_space a.
Proof. destruct a as [[] [] [] [] [] [] [] []]; reflexivity. Qed.

Lemma lower_ascii_digit (a : ascii) :
  js_digit (lower_ascii a) = true ∨ js_digit a = true → lower_ascii a = a ∧ js_digit a = true.
Proof. destruct a as [[] [] [] [] [] [] [] []]; intros [H|H]; try done. Qed.

Lemma toLowerCase_idemp (s : string) : toLowerCase (toLowerCase s) = toLowerCase s.
Proof. induction s as [|a r IH]; simpl; [done|]. by rewrite lower_ascii_idemp, IH. Qed.

Lemma strip_toLowerCase (s : string) :
  strip_spaces (toLowerCase s) = toLowerCase (strip_spaces s).
Proof.
  induction s as [|a r IH]; simpl; [done|].
  rewrite lower_ascii_space. destruct (js_space a); simpl; by rewrite IH.
Qed.

Lemma toLowerCase_digits (s : string) :
  all_digits (toLowerCase s) = true ∨ all_digits s = true → toLowerCase s = s.
Proof.
  induction s as [|a r IH]; simpl; [done|].
  intros [[Ha Hr]%andb_true_iff|[Ha Hr]%andb_true_iff].
  - destruct (lower_ascii_digit a (or_introl Ha)) as [-> _]. rewrite IH; auto.
  - destruct (lower_ascii_digit a (or_intror Ha)) as [-> _]. rewrite IH; auto.
Qed.

Lemma prefix_digits (sub s : string) :
  String.prefix sub s = true → all_digits s = true → all_digits sub = true.
Proof.
  revert s. induction sub as [|a r IH]; intros [|b t]; simpl; try done.
  destruct (Ascii.ascii_dec a b) as [->|]; [|done].
  intros Hp [Hb Ht]%andb_true_iff. rewrite Hb. simpl. by eapply IH.
Qed.

Lemma includes_digits (s sub : string) :
  includes s sub = true → all_digits s = true → all_digits sub = true.
Proof.
  induction s as [|a r IH]; simpl.
  - rewrite orb_false_r. intros Hp _. by destruct sub.
  - intros [Hp|Hi]%orb_true_iff Hd.
    + by apply (prefix_digits sub (String a r)).
    + apply andb_true_iff in Hd as [_ Hr]. by apply IH.
Qed.

Lemma includes_phone_lower (phone sub : string) :
  all_digits phone = true →
  includes phone (toLowerCase sub) = includes phone sub.
Proof.
  intros Hd.
  destruct (includes phone (toLowerCase sub)) eqn:H1.
  - rewrite (toLowerCase_digits sub) in H1; [done|]. left.
    by apply (includes_digits phone).
  - destruct (includes phone sub) eqn:H2; [|done].
    rewrite toLowerCase_digits in H1; [congruence|]. right.
    by apply (includes_digits phone).
Qed.

Lemma reachable_phone_digits hash d :
  reachable hash d → Forall (λ u, all_digits (User.phone u) = true) (users d).
Proof.
  intros H%reachable_writes.
  assert (Hwf : phones_wf (users d)).
  { apply (writes_preserve (λ d, phones_wf (users d)) write_phones_wf _ _ H).
    split; [apply NoDup_nil_2|constructor]. }
  destruct Hwf as [_ Hval]. eapply Forall_impl; [exact Hval|].
  intros u Hu. unfold phoneRegex_test in Hu.
  by apply andb_true_iff in Hu as [[? _]%andb_true_iff _].
Qed.

Lemma strip_spaces_skip (s1 s2 : string) (a : ascii) :
  js_space a = true → strip_spaces (s1 +:+ String a s2) = strip_spaces (s1 +:+ s2).
Proof.
  intros Ha. induction s1 as [|b r IH].
  - change (strip_spaces (String a s2) = strip_spaces s2). simpl. by rewrite Ha.
  - change (strip_spaces (String b (r +:+ String a s2))
            = strip_spaces (String b (r +:+ s2))).
    simpl. by rewrite IH.
Qed.

Lemma strip_spaces_clean (s s1 s2 : string) (a : ascii) :
  strip_spaces s = s1 +:+ String a s2 → js_space a = false.
Proof.
  revert s1. induction s as [|b r IH]; intros s1; simpl.
  - by destruct s1.
  - destruct (js_space b) eqn:Hb; [apply IH|].
    destruct s1 as [|c s1].
    + by intros [= <- _].
    + change (String c s1 +:+ String a s2) with (String c (s1 +:+ String a s2)).
      intros [= _ H]. by apply (IH s1).
Qed.

Lemma getUserByPhone_unique (d : Disk) (u : User.t) :
  NoDup (User.phone <$> users d) → u ∈ users d →
  getUserByPhone (User.phone u) d = Some u.
Proof.
  intros Hnd Hu. unfold getUserByPhone, getUsers.
  destruct (list_find (λ x, User.phone x = User.phone u) (users d)) as [[j y]|] eqn:Hf.
  - apply list_find_Some in Hf as (Hj & Hy & _).
    apply list_elem_of_lookup in Hu as [i Hi].
    assert (i = j) as ->.
    { apply (NoDup_lookup (User.phone <$> users d) i j (User.phone u)); [done| |].
      - by rewrite list_lookup_fmap, Hi.
      - by rewrite list_lookup_fmap, Hj, <- Hy. }
    simpl. congruence.
  - apply list_find_None in Hf. rewrite Forall_forall in Hf. by destruct (Hf u Hu).
Qed.

(** In every store the server can reach, a user is found by any spelling
    of their phone: the stored phone is its own normal form, blanks put
    anywhere into it are dropped by the normalisation, which leaves no blank
    behind, and the lookup of the normal form returns that user and no
    other. *)
Theorem phone_spelling_lookup (hash : string → string) (d : Disk) (u : User.t)
    (s s1 s2 : string) (a : ascii) :
  reachable hash d → u ∈ users d →
  strip_spaces (User.phone u) = User.phone u
  ∧ (strip_spaces s = User.phone u → getUserByPhone (strip_spaces s) d = Some u)
  ∧ (js_space a = true → User.phone u = s1 +:+ s2 →
     strip_spaces (s1 +:+ String a s2) = User.phone u
     ∧ getUserByPhone (strip_spaces (s1 +:+ String a s2)) d = Some u)
  ∧ (∀ t1 t2 b, strip_spaces s = t1 +:+ String b t2 → js_space b = false).
Proof.
  intros Hd Hu.
  assert (Hwf : phones_wf (users d)).
  { apply (writes_preserve (λ d, phones_wf (users d)) write_phones_wf _ _
             (reachable_writes hash d Hd)).
    split; [apply NoDup_nil_2|constructor]. }
  destruct Hwf as [Hnd _].
  assert (Hfix : strip_spaces (User.phone u) = User.phone u).
  { apply all_digits_strip.
    pose proof (reachable_phone_digits hash d Hd) as Hdig.
    rewrite Forall_forall in Hdig. by apply Hdig. }
  assert (Hfind : getUserByPhone (User.phone u) d = Some u)
    by (by apply getUserByPhone_unique).
  split_and!.
  - done.
  - by intros ->.
  - intros Ha Hsplit.
    assert (Hn : strip_spaces (s1 +:+ String a s2) = User.phone u).
    { rewrite (strip_spaces_skip s1 s2 a Ha). by rewrite <- Hsplit. }
    by rewrite Hn.
  - intros t1 t2 b. apply strip_spaces_clean.
Qed.

Lemma phone_spelling_lookup_witness :
  getUserByPhone (strip_spaces "555 9876543") disk_ab = Some bob.
Proof.
  refine (proj2 (proj1 (proj2 (proj2
            (phone_spelling_lookup toy_hash disk_ab bob EmptyString "555" "9876543"
               " "%char disk_ab_reachable _)))
            eq_refl eq_refl)).
  apply list_elem_of_further, list_elem_of_here.
Defined.

(** In every store the server can reach, user search does not depend on
    the case of the query: two queries with the same lower-case form find
    the same users. *)
Theorem users_search_case_insensitive (hash : string → string) (me q1 q2 : string)
    (d : Disk) :
  reachable hash d →
  toLowerCase q1 = toLowerCase q2 →
  filteredUsers me (Some q1) d = filteredUsers me (Some q2) d.
Proof.
  intros Hd Hq.
  assert (Hlow : ∀ q, filteredUsers me (Some q) d
                      = filteredUsers me (Some (toLowerCase q)) d).
  { intros q. unfold filteredUsers, getUsers. f_equal. simpl.
    pose proof (reachable_phone_digits hash d Hd) as Hval.
    rewrite Forall_forall in Hval.
    assert (Hext : ∀ u, u ∈ users d →
               (search_match me q (list_to_set (Contact.contactId <$> getUserContacts me d)) u
                ↔ search_match me (toLowerCase q)
                    (list_to_set (Contact.contactId <$> getUserContacts me d)) u)).
    { intros u Hu. unfold search_match.
      rewrite toLowerCase_idemp, strip_toLowerCase.
      rewrite (includes_phone_lower (User.phone u)) by (by apply Hval). tauto. }
    clear Hval. induction (users d) as [|u l IH]; [done|].
    rewrite !filter_cons. rewrite IH by (intros; apply Hext; by right).
    destruct (Hext u (list_elem_of_here _ _)) as [H1 H2].
    repeat case_decide; tauto || done. }
  by rewrite (Hlow q1), (Hlow q2), Hq.
Qed.

Lemma users_search_case_insensitive_witness :
  filteredUsers (User.id alice) (Some "BoB") disk_ab
  = filteredUsers (User.id alice) (Some "bOb") disk_ab.
Proof.
  exact (users_search_case_insensitive toy_hash (User.id alice) "BoB" "bOb" disk_ab
           disk_ab_reachable eq_refl).
Defined.

(** ** The userIds parameter *)

Lemma rev_app_append (s1 s2 s3 : string) :
  String.rev_app s1 s2 +:+ s3 = String.rev_app s1 (s2 +:+ s3).
Proof. revert s2. induction s1 as [|a r IH]; intros s2; simpl; [done|]. apply IH. Qed.

Lemma append_empty_r (s : string) : s +:+ EmptyString = s.
Proof.
  induction s as [|a r IH]; [done|].
  change (String a (r +:+ EmptyString) = String a r). by rewrite IH.
Qed.

Lemma rev_cons_append (a : ascii) (cur r : string) :
  String.rev (String a cur) +:+ r = String.rev cur +:+ String a r.
Proof. unfold String.rev. simpl. by rewrite !rev_app_append. Qed.

Lemma split_comma_go_plain (cur s : string) :
  has_comma s = false → split_comma_go cur s = [String.rev cur +:+ s].
Proof.
  revert cur. induction s as [|a r IH]; intros cur; simpl.
  - by rewrite append_empty_r.
  - intros [Ha Hr]%orb_false_iff. rewrite Ha, IH by done. by rewrite rev_cons_append.
Qed.

Lemma split_comma_go_comma (cur s t : string) :
  has_comma s = false →
  split_comma_go cur (s +:+ "," +:+ t)
  = (String.rev cur +:+ s) :: split_comma_go EmptyString t.
Proof.
  revert cur. induction s as [|a r IH]; intros cur; simpl.
  - by rewrite append_empty_r.
  - intros [Ha Hr]%orb_false_iff. rewrite Ha, IH by done. by rewrite rev_cons_append.
Qed.

Lemma url_plain_not_comma (a : ascii) :
  url_plain a = true → bool_decide (a = ","%char) = false.
Proof. destruct a as [[] [] [] [] [] [] [] []]; done. Qed.

Lemma plain_id_no_comma (s : string) : plain_id s = true → has_comma s = false.
Proof.
  induction s as [|a r IH]; simpl; [done|].
  intros [Ha Hr]%andb_true_iff. by rewrite (url_plain_not_comma a Ha), IH.
Qed.

Lemma plain_or_comma_app (s t : string) :
  plain_or_comma s = true → plain_or_comma t = true → plain_or_comma (s +:+ t) = true.
Proof.
  intros Hs Ht. induction s as [|a r IH]; [done|].
  change (plain_or_comma (String a (r +:+ t)) = true). simpl in *.
  apply andb_true_iff in Hs as [Ha Hr]. by rewrite Ha, IH.
Qed.

Lemma plain_id_plain_or_comma (s : string) : plain_id s = true → plain_or_comma s = true.
Proof.
  induction s as [|a r IH]; simpl; [done|].
  intros [Ha Hr]%andb_true_iff. by rewrite Ha, IH.
Qed.

Lemma join_comma_plain (ids : list string) :
  Forall (λ x, plain_id x = true) ids → plain_or_comma (join_comma ids) = true.
Proof.
  induction 1 as [|x l Hx Hl IH]; [done|]. destruct l as [|y l].
  - by apply plain_id_plain_or_comma.
  - change (join_comma (x :: y :: l)) with (x +:+ "," +:+ join_comma (y :: l)).
    apply plain_or_comma_app; [by apply plain_id_plain_or_comma|].
    by apply (plain_or_comma_app ",").
Qed.

Lemma split_join_comma (ids : list string) :
  ids ≠ [] → Forall (λ x, has_comma x = false) ids →
  split_comma (join_comma ids) = ids.
Proof.
  intros Hne Hall. unfold split_comma.
  induction Hall as [|x l Hx Hl IH]; [done|].
  destruct l as [|y l].
  - simpl. by rewrite split_comma_go_plain.
  - change (join_comma (x :: y :: l)) with (x +:+ "," +:+ join_comma (y :: l)).
    rewrite split_comma_go_comma by done. by rewrite IH.
Qed.

(** The id list the chat page joins with commas into the userIds parameter
    of GET /users/status is split back by the handler into the same ids,
    provided there is at least one id, the ids consist of ASCII letters and
    digits (as generated ids do), and the URL hands a query value made of
    such characters and commas to the handler as it was written; the joined
    empty list would be read as one empty id. *)
Theorem userIds_round_trip (through_url : string → string) (ids : list string) :
  (∀ s, plain_or_comma s = true → through_url s = s) →
  (ids ≠ [] → Forall (λ x, plain_id x = true) ids →
   parse_userIds (Some (through_url (join_comma ids))) = ids)
  ∧ parse_userIds (Some (through_url (join_comma []))) = [EmptyString].
Proof.
  intros Hurl. split.
  - intros Hne Hall. rewrite Hurl by (by apply join_comma_plain).
    unfold parse_userIds. apply split_join_comma; [done|].
    eapply Forall_impl; [exact Hall|]. apply plain_id_no_comma.
  - by rewrite Hurl.
Qed.

Lemma userIds_round_trip_witness :
  parse_userIds (Some (join_comma [User.id alice; User.id bob])) = [User.id alice; User.id bob].
Proof.
  apply (proj1 (userIds_round_trip (λ s, s) [User.id alice; User.id bob] (λ s _, eq_refl)));
    [discriminate|].
  repeat constructor.
Defined.

(** ** Requests that only read *)

(** GET /contacts, GET /users/status, GET /users/:id, GET /profile and
    GET /users/search never change the store, whatever they are sent. *)
Theorem read_only_requests (hash : string → string) (e : Env) (session x : option string)
    (id : string) (d : Disk) :
  (handle hash e (GetContacts session) d).1 = d
  ∧ (handle hash e (GetStatus session x) d).1 = d
  ∧ (handle hash e (GetUser session id) d).1 = d
  ∧ (handle hash e (GetProfile session) d).1 = d
  ∧ (users_search_GET session x d).1 = d.
Proof.
  simpl. unfold contacts_GET, status_GET, users_id_GET, profile_GET, users_search_GET.
  destruct (nonempty session) as [me|]; [|done].
  split_and!; try done.
  - by destruct (getUserById id d).
  - by destruct (getUserById me d).
Qed.
